(** * File-sharing core: quota ledger, sharing gate and expiry reaper

    A shallow embedding of [src/services/userService.ts],
    [src/services/fileService.ts] and the link dialog of
    [src/components/FileList.tsx].

    Conventions of the embedding:
    - a JavaScript [Date] (and a Firestore [Timestamp]) is its number of
      milliseconds since the epoch, a [Z]; its local time follows the
      abstract operations of ECMAScript, for the time zone of the browser;
    - a JavaScript [number] holding a byte count is a [Z]; one holding a
      number of hours, which the link dialog reads from a numeric field,
      is the rational [Q] it denotes: [NaN] and the infinities are left
      out, and sums are exact, without the rounding of double precision,
      which the whole and the half hours of the theorems below do not
      meet;
    - a JavaScript string is the [string] of its UTF-8 bytes, so that
      [TextEncoder.encode] is the list of its characters' codes;
    - an optional field [f?: T] of a Firestore document is an [option T];
    - the two Firestore collections ['files'] and ['users'] are finite maps
      from document ids to documents;
    - an [async] function is a function on the state of the world that
      returns a value or throws, together with the new state;
    - the document store answers every request: a request fails only
      for what it asks, the update of a document that does not exist or
      the writing of data that the store cannot hold, and never for the
      network or the security rules; the blob store may fail, and what it
      does is an argument of the operations that call it, as is the
      current time [now] that [new Date()] reads;
    - the time zone of the browser and the one setting of the Firestore
      client that the operations depend on, made in [@/config/firebase],
      are part of the world. *)

From Stdlib Require Import ZArith String Ascii List Lia QArith Qround.
From stdpp Require Import base option gmap strings list sorting fin_maps.

Local Open Scope Z_scope.

(** ** SHA-256 (FIPS 180-4), what [crypto.subtle.digest('SHA-256', _)] computes *)

Module SHA256.

Definition mask32 : Z := 4294967295.

Definition w32 (x : Z) : Z := Z.land x mask32.

Definition add32 (x y : Z) : Z := w32 (x + y).

Definition rotr (n x : Z) : Z :=
  Z.lor (Z.shiftr x n) (w32 (Z.shiftl x (32 - n))).

Definition Ch (x y z : Z) : Z :=
  Z.lxor (Z.land x y) (Z.land (Z.lxor x mask32) z).

Definition Maj (x y z : Z) : Z :=
  Z.lxor (Z.lxor (Z.land x y) (Z.land x z)) (Z.land y z).

Definition bigS0 (x : Z) : Z := Z.lxor (Z.lxor (rotr 2 x) (rotr 13 x)) (rotr 22 x).
Definition bigS1 (x : Z) : Z := Z.lxor (Z.lxor (rotr 6 x) (rotr 11 x)) (rotr 25 x).
Definition smallS0 (x : Z) : Z := Z.lxor (Z.lxor (rotr 7 x) (rotr 18 x)) (Z.shiftr x 3).
Definition smallS1 (x : Z) : Z := Z.lxor (Z.lxor (rotr 17 x) (rotr 19 x)) (Z.shiftr x 10).

(** The round constants are the first 32 bits of the fractional parts of
    the cube roots of the first 64 primes, the initial state the same
    for the square roots of the first 8 primes. *)
Definition primes : list Z :=
  [2; 3; 5; 7; 11; 13; 17; 19; 23; 29; 31; 37; 41; 43; 47; 53;
   59; 61; 67; 71; 73; 79; 83; 89; 97; 101; 103; 107; 109; 113; 127; 131;
   137; 139; 149; 151; 157; 163; 167; 173; 179; 181; 191; 193; 197; 199;
   211; 223; 227; 229; 233; 239; 241; 251; 257; 263; 269; 271; 277; 281;
   283; 293; 307; 311].

(** Largest [r] below [2 ^ bits] with [r ^ 3 <= n], one bit at a time. *)
Fixpoint icbrt_bits (bits : nat) (n r : Z) : Z :=
  match bits with
  | O => r
  | S b =>
      let r' := r + 2 ^ Z.of_nat b in
      icbrt_bits b n (if r' * r' * r' <=? n then r' else r)
  end.

Definition icbrt (n : Z) : Z := icbrt_bits 40 n 0.

Definition K : list Z := Eval vm_compute in
  map (fun p => w32 (icbrt (p * 2 ^ 96))) primes.

Definition H0 : list Z := Eval vm_compute in
  map (fun p => w32 (Z.sqrt (p * 2 ^ 64))) (take 8 primes).

(** Padding: the bit 1, zeros up to 56 modulo 64 bytes, the bit length
    on 8 bytes, big endian. *)
Fixpoint be_bytes (n : nat) (x : Z) : list Z :=
  match n with
  | O => []
  | S m => Z.land (Z.shiftr x (8 * Z.of_nat m)) 255 :: be_bytes m x
  end.

Definition pad (msg : list Z) : list Z :=
  let len := Z.of_nat (length msg) in
  let zeros := Z.to_nat ((55 - len) mod 64) in
  msg ++ 128 :: replicate zeros 0 ++ be_bytes 8 (8 * len).

Fixpoint be_words (fuel : nat) (bs : list Z) : list Z :=
  match fuel, bs with
  | S k, b0 :: b1 :: b2 :: b3 :: rest =>
      (Z.shiftl b0 24 + Z.shiftl b1 16 + Z.shiftl b2 8 + b3) :: be_words k rest
  | _, _ => []
  end.

(** Message schedule; [recent] holds the words computed so far, the
    latest first. *)
Fixpoint schedule (n : nat) (recent : list Z) : list Z :=
  match n with
  | O => recent
  | S m =>
      let wt := add32 (add32 (smallS1 (nth 1 recent 0)) (nth 6 recent 0))
                      (add32 (smallS0 (nth 14 recent 0)) (nth 15 recent 0)) in
      schedule m (wt :: recent)
  end.

Record regs := Regs { ra : Z; rb : Z; rc : Z; rd : Z; re : Z; rf : Z; rg : Z; rh : Z }.

Definition round (s : regs) (kw : Z * Z) : regs :=
  let t1 := add32 (add32 (add32 (rh s) (bigS1 (re s))) (Ch (re s) (rf s) (rg s)))
                  (add32 (fst kw) (snd kw)) in
  let t2 := add32 (bigS0 (ra s)) (Maj (ra s) (rb s) (rc s)) in
  Regs (add32 t1 t2) (ra s) (rb s) (rc s) (add32 (rd s) t1) (re s) (rf s) (rg s).

Definition regs_of (l : list Z) : regs :=
  Regs (nth 0 l 0) (nth 1 l 0) (nth 2 l 0) (nth 3 l 0)
       (nth 4 l 0) (nth 5 l 0) (nth 6 l 0) (nth 7 l 0).

Definition list_of (s : regs) : list Z :=
  [ra s; rb s; rc s; rd s; re s; rf s; rg s; rh s].

Definition compress (h : list Z) (block : list Z) : list Z :=
  let ws := rev (schedule 48 (rev block)) in
  let s := fold_left round (combine K ws) (regs_of h) in
  zip_with add32 h (list_of s).

Fixpoint blocks (fuel : nat) (ws : list Z) : list (list Z) :=
  match fuel, ws with
  | _, [] => []
  | O, _ => []
  | S k, _ => take 16 ws :: blocks k (drop 16 ws)
  end.

Definition digest (msg : list Z) : list Z :=
  let bs := pad msg in
  let ws := be_words (length bs) bs in
  let h := fold_left compress (blocks (length ws) ws) H0 in
  flat_map (be_bytes 4) h.

End SHA256.


(** ** JavaScript values *)

(** [if (s)] on a string. *)
Definition truthy_string (s : string) : bool := negb (bool_decide (s = "")).

(** [if (n)] on a number. *)
Definition truthy_number (n : Q) : bool := negb (Qeq_bool n 0).

(** [ToIntegerOrInfinity]: the fraction of a number is dropped, towards
    zero. *)
Definition truncate (q : Q) : Z :=
  if Qle_bool 0 q then Qfloor q else Qceiling q.

(** A property that may be missing, [null] or a number, as
    [options.expiresIn] is; the number is any rational, the hours field
    of the dialog taking fractions and negative numbers as well. *)
Inductive Nullable : Type :=
  | Undefined
  | Null
  | Num (n : Q).

(** [new TextEncoder().encode(s)]. *)
Definition encode (s : string) : list Z :=
  map (fun c => Z.of_N (N_of_ascii c)) (list_ascii_of_string s).

Definition hex_digit (d : Z) : ascii :=
  nth (Z.to_nat d) (list_ascii_of_string "0123456789abcdef") "0"%char.

(** [b.toString(16)] for a byte. *)
Definition toString16 (b : Z) : string :=
  if b <? 16 then String (hex_digit b) EmptyString
  else String (hex_digit (b / 16)) (String (hex_digit (b mod 16)) EmptyString).

(** [s.padStart(2, '0')] for a string of at most two characters. *)
Definition padStart2 (s : string) : string :=
  match s with
  | EmptyString => "00"
  | String c EmptyString => String "0"%char s
  | _ => s
  end.

(** The string of the bytes [codes]. *)
Definition of_codes (codes : list N) : string :=
  string_of_list_ascii (map ascii_of_N codes).

(** The white space and the line terminators of ECMAScript in UTF-8:
    U+0009 to U+000D, U+0020, U+00A0, U+1680, U+2000 to U+200A, U+2028,
    U+2029, U+202F, U+205F, U+3000 and U+FEFF. *)
Definition whiteSpace : list string :=
  of_codes <$>
    [[9]; [10]; [11]; [12]; [13]; [32];
     [194; 160];
     [225; 154; 128];
     [226; 128; 128]; [226; 128; 129]; [226; 128; 130]; [226; 128; 131];
     [226; 128; 132]; [226; 128; 133]; [226; 128; 134]; [226; 128; 135];
     [226; 128; 136]; [226; 128; 137]; [226; 128; 138];
     [226; 128; 168]; [226; 128; 169];
     [226; 128; 175];
     [226; 129; 159];
     [227; 128; 128];
     [239; 187; 191]]%N.

(** What follows [p] in [s], if [s] starts with [p]. *)
Fixpoint stripPrefix (p s : string) : option string :=
  match p, s with
  | EmptyString, _ => Some s
  | String a p', String b s' => if bool_decide (a = b) then stripPrefix p' s' else None
  | String _ _, EmptyString => None
  end.

(** What follows the first of the sequences [seqs] that [s] starts with. *)
Fixpoint stripAny (seqs : list string) (s : string) : option string :=
  match seqs with
  | [] => None
  | p :: rest =>
      match stripPrefix p s with
      | Some s' => Some s'
      | None => stripAny rest s
      end
  end.

Fixpoint stripAll (fuel : nat) (seqs : list string) (s : string) : string :=
  match fuel with
  | O => s
  | S k =>
      match stripAny seqs s with
      | Some s' => stripAll k seqs s'
      | None => s
      end
  end.

(** [s.trimStart()]; a string has no more characters than bytes. *)
Definition trimStart (s : string) : string :=
  stripAll (String.length s) whiteSpace s.

(** [s.trimEnd()]: in UTF-8 a string ends with a character exactly when
    it ends with the bytes of the character. *)
Definition trimEnd (s : string) : string :=
  String.rev (stripAll (String.length s) (String.rev <$> whiteSpace) (String.rev s)).

(** [s.trim()]. *)
Definition trim (s : string) : string := trimEnd (trimStart s).

(** [hashPassword]: the SHA-256 digest of the UTF-8 bytes, in lower-case
    hexadecimal, two digits a byte. *)
Definition hashPassword (password : string) : string :=
  String.concat "" (map (fun b => padStart2 (toString16 b)) (SHA256.digest (encode password))).

Arguments hashPassword : simpl never.

(** ** Documents *)

Module UserProfile.
Record t : Type := mk {
  uid : string;
  email : string;
  createdAt : Z;
  updatedAt : Z;
  totalStorage : Z;
  usedStorage : Z;
  files : list string;
  sharedFiles : list string
}.

Definition with_usedStorage (v : Z) (p : t) : t :=
  mk (uid p) (email p) (createdAt p) (updatedAt p) (totalStorage p) v
     (files p) (sharedFiles p).

Definition with_updatedAt (v : Z) (p : t) : t :=
  mk (uid p) (email p) (createdAt p) v (totalStorage p) (usedStorage p)
     (files p) (sharedFiles p).

Definition with_files (v : list string) (p : t) : t :=
  mk (uid p) (email p) (createdAt p) (updatedAt p) (totalStorage p)
     (usedStorage p) v (sharedFiles p).
End UserProfile.

(** The fields of [FileData], but for [displayName], [originalFilename]
    and [fileType], the copies of [name] and [type] that no operation
    reads. The fields that [uploadFile] takes from the answer of the blob
    store are optional: the answer may lack them. *)
Module FileData.
Record t : Type := mk {
  userId : string;
  name : string;
  size : Z;
  type : string;
  url : option string;
  secureUrl : option string;
  publicId : option string;
  isPublic : bool;
  uploadedAt : option Z;
  updatedAt : option Z;
  expiresAt : option Z;
  sharedWith : list string;
  isPasswordProtected : option bool;
  password : option string;
  format : option string;
  assetId : option string;
  width : option Z;
  height : option Z;
  resourceType : option string
}.

Definition with_isPublic (v : bool) (f : t) : t :=
  mk (userId f) (name f) (size f) (type f) (url f) (secureUrl f) (publicId f)
     v (uploadedAt f) (updatedAt f) (expiresAt f) (sharedWith f)
     (isPasswordProtected f) (password f)
     (format f) (assetId f) (width f) (height f) (resourceType f).

Definition with_uploadedAt (v : option Z) (f : t) : t :=
  mk (userId f) (name f) (size f) (type f) (url f) (secureUrl f) (publicId f)
     (isPublic f) v (updatedAt f) (expiresAt f) (sharedWith f)
     (isPasswordProtected f) (password f)
     (format f) (assetId f) (width f) (height f) (resourceType f).

Definition with_expiresAt (v : option Z) (f : t) : t :=
  mk (userId f) (name f) (size f) (type f) (url f) (secureUrl f) (publicId f)
     (isPublic f) (uploadedAt f) (updatedAt f) v (sharedWith f)
     (isPasswordProtected f) (password f)
     (format f) (assetId f) (width f) (height f) (resourceType f).

Definition with_protection (flag : option bool) (hash : option string) (f : t) : t :=
  mk (userId f) (name f) (size f) (type f) (url f) (secureUrl f) (publicId f)
     (isPublic f) (uploadedAt f) (updatedAt f) (expiresAt f) (sharedWith f)
     flag hash
     (format f) (assetId f) (width f) (height f) (resourceType f).

(** [if (fileData.isPasswordProtected)]. *)
Definition protected (f : t) : bool :=
  match isPasswordProtected f with
  | Some b => b
  | None => false
  end.
End FileData.

(** The browser's [File] handed to [uploadFile]. *)
Module File.
Record t : Type := mk { name : string; size : Z; type : string }.
End File.

(** The [options] argument of [uploadFile] and [generateShareableLink]. *)
Module Options.
Record t : Type := mk { expiresIn : Nullable; password : option string }.
End Options.

(** [options?.expiresIn] and [options?.password]. *)
Definition opt_expiresIn (options : option Options.t) : Nullable :=
  match options with
  | Some o => Options.expiresIn o
  | None => Undefined
  end.

Definition opt_password (options : option Options.t) : option string :=
  match options with
  | Some o => Options.password o
  | None => None
  end.

(** ** The blob store (Cloudinary), an external collaborator *)

Module Cloudinary.
(** The JSON answer to an upload: the properties that [uploadFile]
    reads, each of which the answer may lack. *)
Record data : Type := mkData {
  url : option string;
  secure_url : option string;
  public_id : option string;
  format : option string;
  asset_id : option string;
  width : option Z;
  height : option Z;
  resource_type : option string
}.

(** What [fetch] does: it throws, or it answers. *)
Inductive uploadReply : Type :=
  | UploadThrows
  | UploadAnswers (d : data).

Inductive destroyReply : Type :=
  | DestroyThrows
  | DestroyAnswers (ok : bool).

(** The behaviour of the blob store during one operation. *)
Record t : Type := mk {
  onUpload : uploadReply;
  onDestroy : option string -> destroyReply
}.

(** The requests that reached the blob store. *)
Inductive request : Type :=
  | Upload (folder : string) (fileName : string) (bytes : Z)
  | Destroy (publicId : option string).
End Cloudinary.

(** ** Dates, in the time zone of the browser *)

(** The time zone: the offset of local time from UTC in milliseconds, at
    a time value in UTC and at a local time value, which is
    [LocalTZA(t, isUTC)] of ECMAScript. *)
Module TimeZone.
Record t : Type := mk {
  offsetAtUTC : Z -> Z;
  offsetAtLocal : Z -> Z
}.

(** A zone whose offset never changes. *)
Definition fixed (offset : Z) : t := mk (fun _ => offset) (fun _ => offset).
End TimeZone.

Definition msPerDay : Z := 86400000.
Definition msPerHour : Z := 3600000.
Definition msPerMinute : Z := 60000.
Definition msPerSecond : Z := 1000.

Definition LocalTime (zone : TimeZone.t) (t : Z) : Z := t + TimeZone.offsetAtUTC zone t.
Definition UTC (zone : TimeZone.t) (t : Z) : Z := t - TimeZone.offsetAtLocal zone t.

Definition Day (t : Z) : Z := t / msPerDay.
Definition HourFromTime (t : Z) : Z := (t / msPerHour) mod 24.
Definition MinFromTime (t : Z) : Z := (t / msPerMinute) mod 60.
Definition SecFromTime (t : Z) : Z := (t / msPerSecond) mod 60.
Definition msFromTime (t : Z) : Z := t mod msPerSecond.

Definition MakeTime (hour : Q) (min sec ms : Z) : Z :=
  truncate hour * msPerHour + min * msPerMinute + sec * msPerSecond + ms.

Definition MakeDate (day time : Z) : Z := day * msPerDay + time.

(** [date.getHours()]. *)
Definition getHours (zone : TimeZone.t) (date : Z) : Z :=
  HourFromTime (LocalTime zone date).

(** The time value of [date] after [date.setHours(hour)]. A time value
    beyond the range of [Date], which [TimeClip] turns into an invalid
    date, is kept as it is. *)
Definition setHours (zone : TimeZone.t) (date : Z) (hour : Q) : Z :=
  let t := LocalTime zone date in
  UTC zone (MakeDate (Day t)
                     (MakeTime hour (MinFromTime t) (SecFromTime t) (msFromTime t))).

(** [date.setHours(date.getHours() + hours)]. *)
Definition addHours (zone : TimeZone.t) (date : Z) (hours : Q) : Z :=
  setHours zone date (inject_Z (getHours zone date) + hours).



(** The dates that a Firestore [Timestamp] holds: from the year 1 to the
    year 9999. *)
Definition storableDate (date : Z) : bool :=
  (-62135596800000 <=? date) && (date <? 253402300800000).

(** ** The state of the world *)

(** What the operations depend on besides the two stores: the time zone
    of the browser, and whether the Firestore client was made with
    [ignoreUndefinedProperties], which [@/config/firebase] decides. *)
Module Settings.
Record t : Type := mk {
  timeZone : TimeZone.t;
  ignoreUndefinedProperties : bool
}.
End Settings.

Record World : Type := mkWorld {
  fileDocs : gmap string FileData.t;
  userDocs : gmap string UserProfile.t;
  blobRequests : list Cloudinary.request;
  settings : Settings.t
}.

(** The errors thrown: the [Error]s of the two services by their message,
    a [fetch] that fails, an [updateDoc] on a missing document, and an
    [addDoc] or [updateDoc] of data that the store cannot hold. *)
Inductive Error : Type :=
  | UserProfileNotFound    (* 'User profile not found' *)
  | StorageQuotaExceeded   (* 'Storage quota exceeded' *)
  | FileNotFound           (* 'File not found' *)
  | Unauthorized           (* 'Unauthorized' *)
  | NoPermissionToShare    (* 'You do not have permission to share this file' *)
  | FailedToUpload         (* 'Failed to upload file' *)
  | FetchFailed
  | NoDocumentToUpdate
  | InvalidData.

Inductive Outcome (A : Type) : Type :=
  | Returned (a : A)
  | Thrown (e : Error).
Arguments Returned {A} a.
Arguments Thrown {A} e.

(** An [async] function body: it runs on a world, returns or throws, and
    leaves a world, also when it throws. *)
Definition Async (A : Type) : Type := World -> Outcome A * World.

#[global] Instance Async_ret : MRet Async :=
  fun A a w => (Returned a, w).

#[global] Instance Async_bind : MBind Async :=
  fun A B k m w =>
    match m w with
    | (Returned a, w') => k a w'
    | (Thrown e, w') => (Thrown e, w')
    end.

Definition throw {A : Type} (e : Error) : Async A :=
  fun w => (Thrown e, w).

(** [try { body } catch (error) { handler }]. *)
Definition try_catch {A : Type} (body : Async A) (handler : Error -> Async A) : Async A :=
  fun w =>
    match body w with
    | (Returned a, w') => (Returned a, w')
    | (Thrown e, w') => handler e w'
    end.

(** Running an operation: what it returned and the world it left. *)
Definition result {A : Type} (r : Outcome A * World) : Outcome A := r.1.
Definition world {A : Type} (r : Outcome A * World) : World := r.2.

(** [for] each element in turn. *)
Fixpoint forEach {A : Type} (f : A -> Async unit) (l : list A) : Async unit :=
  match l with
  | [] => mret tt
  | x :: rest => f x ≫= fun _ => forEach f rest
  end.

(** The time zone in which the dates of the page are local. *)
Definition zoneOf (w : World) : TimeZone.t := Settings.timeZone (settings w).

Definition localTimeZone : Async TimeZone.t :=
  fun w => (Returned (zoneOf w), w).

(** ** The document store (Firestore)

    Reads and writes of single documents; a query returns the matching
    documents in the order of the map's enumeration. A read, a query and
    a deletion always answer; an update fails on a document that does
    not exist; a new document or an update is refused when it holds
    data that the store cannot hold. *)

Definition getDoc_file (id : string) : Async (option FileData.t) :=
  fun w => (Returned (fileDocs w !! id), w).

Definition getDoc_user (id : string) : Async (option UserProfile.t) :=
  fun w => (Returned (userDocs w !! id), w).

Definition getDocs_files (q : FileData.t -> bool) : Async (list (string * FileData.t)) :=
  fun w => (Returned (map_to_list (filter (fun kv => q kv.2) (fileDocs w))), w).

(** [updateDoc] fails on a document that does not exist. *)
Definition updateDoc_file (id : string) (change : FileData.t -> FileData.t) : Async unit :=
  fun w =>
    match fileDocs w !! id with
    | Some f => (Returned tt, mkWorld (<[id := change f]> (fileDocs w)) (userDocs w) (blobRequests w) (settings w))
    | None => (Thrown NoDocumentToUpdate, w)
    end.

Definition updateDoc_user (id : string) (change : UserProfile.t -> UserProfile.t) : Async unit :=
  fun w =>
    match userDocs w !! id with
    | Some p => (Returned tt, mkWorld (fileDocs w) (<[id := change p]> (userDocs w)) (blobRequests w) (settings w))
    | None => (Thrown NoDocumentToUpdate, w)
    end.

Definition setDoc_user (id : string) (p : UserProfile.t) : Async unit :=
  fun w => (Returned tt, mkWorld (fileDocs w) (<[id := p]> (userDocs w)) (blobRequests w) (settings w)).

(** The fields that [uploadFile] sets from the answer of the blob store
    are all defined. *)
Definition definedFields (f : FileData.t) : bool :=
  bool_decide (is_Some (FileData.url f))
  && bool_decide (is_Some (FileData.secureUrl f))
  && bool_decide (is_Some (FileData.publicId f))
  && bool_decide (is_Some (FileData.format f))
  && bool_decide (is_Some (FileData.assetId f))
  && bool_decide (is_Some (FileData.width f))
  && bool_decide (is_Some (FileData.height f))
  && bool_decide (is_Some (FileData.resourceType f)).

(** The store can hold the object [f] that [uploadFile] has built: no
    field is [undefined], unless the client ignores such fields, and the
    expiration is a date of a [Timestamp]. The current time, which the
    other two dates hold, is such a date. *)
Definition acceptable (s : Settings.t) (f : FileData.t) : bool :=
  (Settings.ignoreUndefinedProperties s || definedFields f)
  && match FileData.expiresAt f with
     | Some date => storableDate date
     | None => true
     end.

(** [addDoc] of the object that [uploadFile] has built; the store picks
    the id [newId] of the new document. *)
Definition addDoc_file (newId : string) (f : FileData.t) : Async string :=
  fun w =>
    if acceptable (settings w) f
    then (Returned newId,
          mkWorld (<[newId := f]> (fileDocs w)) (userDocs w) (blobRequests w) (settings w))
    else (Thrown InvalidData, w).

Definition deleteDoc_file (id : string) : Async unit :=
  fun w => (Returned tt, mkWorld (delete id (fileDocs w)) (userDocs w) (blobRequests w) (settings w)).

(** A field of the partial document given to [updateDoc]. *)
Inductive FieldWrite (A : Type) : Type :=
  | Unchanged
  | Write (v : A)
  | DeleteField.
Arguments Unchanged {A}.
Arguments Write {A} v.
Arguments DeleteField {A}.

Definition write_field {A : Type} (u : FieldWrite A) (old : option A) : option A :=
  match u with
  | Unchanged => old
  | Write v => Some v
  | DeleteField => None
  end.

(** ** The blob store's requests *)

Definition fetch_upload (cloud : Cloudinary.t) (folder fileName : string) (bytes : Z)
  : Async Cloudinary.data :=
  fun w =>
    let w' := mkWorld (fileDocs w) (userDocs w)
                      (blobRequests w ++ [Cloudinary.Upload folder fileName bytes])
                      (settings w) in
    match Cloudinary.onUpload cloud with
    | Cloudinary.UploadThrows => (Thrown FetchFailed, w')
    | Cloudinary.UploadAnswers d => (Returned d, w')
    end.

Definition fetch_destroy (cloud : Cloudinary.t) (publicId : option string) : Async bool :=
  fun w =>
    let w' := mkWorld (fileDocs w) (userDocs w)
                      (blobRequests w ++ [Cloudinary.Destroy publicId])
                      (settings w) in
    match Cloudinary.onDestroy cloud publicId with
    | Cloudinary.DestroyThrows => (Thrown FetchFailed, w')
    | Cloudinary.DestroyAnswers ok => (Returned ok, w')
    end.

(** ** userService.ts *)

Definition createUserProfile (uid email : string) (now : Z) : Async UserProfile.t :=
  let userProfile :=
    UserProfile.mk uid email now now (1024 * 1024 * 1024) 0 [] [] in
  _ ← setDoc_user uid userProfile;
  mret userProfile.

Definition getUserProfile (uid : string) : Async (option UserProfile.t) :=
  getDoc_user uid.

(** [Partial<UserProfile>], for the fields a caller sets. *)
Module PartialUserProfile.
Record t : Type := mk {
  email : option string;
  totalStorage : option Z;
  usedStorage : option Z
}.

Definition spread (d : t) (p : UserProfile.t) : UserProfile.t :=
  UserProfile.mk (UserProfile.uid p)
    (default (UserProfile.email p) (email d))
    (UserProfile.createdAt p) (UserProfile.updatedAt p)
    (default (UserProfile.totalStorage p) (totalStorage d))
    (default (UserProfile.usedStorage p) (usedStorage d))
    (UserProfile.files p) (UserProfile.sharedFiles p).
End PartialUserProfile.

Definition updateUserProfile (uid : string) (data : PartialUserProfile.t) (now : Z) : Async unit :=
  updateDoc_user uid
    (fun p => UserProfile.with_updatedAt now (PartialUserProfile.spread data p)).

(** The constant [newUsedStorage] of [updateUserStorage]. *)
Definition newUsedStorage (userProfile : UserProfile.t) (fileSize : Z) (isAddition : bool)
  : Z :=
  if isAddition
  then UserProfile.usedStorage userProfile + fileSize
  else UserProfile.usedStorage userProfile - fileSize.

Definition updateUserStorage (uid : string) (fileSize : Z) (isAddition : bool) (now : Z)
  : Async unit :=
  userProfile ← getUserProfile uid;
  match userProfile with
  | None => throw UserProfileNotFound
  | Some userProfile =>
      if newUsedStorage userProfile fileSize isAddition
           >? UserProfile.totalStorage userProfile
      then throw StorageQuotaExceeded
      else updateUserProfile uid
             (PartialUserProfile.mk None None
                (Some (newUsedStorage userProfile fileSize isAddition))) now
  end.

(** ** fileService.ts *)

Definition truthy_field (o : option string) : bool :=
  match o with
  | Some s => truthy_string s
  | None => false
  end.

Definition uploadToCloudinary (cloud : Cloudinary.t) (folder fileName : string) (bytes : Z)
  : Async Cloudinary.data :=
  data ← fetch_upload cloud folder fileName bytes;
  if negb (truthy_field (Cloudinary.public_id data))
     && negb (truthy_field (Cloudinary.secure_url data))
  then throw FailedToUpload
  else mret data.

(** [uploadFile]. The test [!response] after the upload cannot succeed,
    the answer being an object, and is left out. *)
Definition uploadFile (cloud : Cloudinary.t) (newId : string)
    (file : File.t) (userId : string) (options : option Options.t) (now : Z)
  : Async (string * FileData.t) :=
  userProfile ← getUserProfile userId;
  match userProfile with
  | None => throw UserProfileNotFound
  | Some userProfile =>
      if UserProfile.usedStorage userProfile + File.size file
           >? UserProfile.totalStorage userProfile
      then throw StorageQuotaExceeded
      else
        response ← uploadToCloudinary cloud ("ofss/" +:+ userId) (File.name file) (File.size file);
        let fileData :=
          FileData.mk userId (File.name file) (File.size file) (File.type file)
            (Cloudinary.url response) (Cloudinary.secure_url response)
            (Cloudinary.public_id response)
            false (Some now) (Some now) None [] None None
            (Cloudinary.format response) (Cloudinary.asset_id response)
            (Cloudinary.width response) (Cloudinary.height response)
            (Cloudinary.resource_type response) in
        let fileData :=
          match opt_password options with
          | Some pw =>
              if truthy_string pw
              then FileData.with_protection (Some true) (Some (hashPassword pw)) fileData
              else fileData
          | None => fileData
          end in
        zone ← localTimeZone;
        let fileData :=
          match opt_expiresIn options with
          | Num hours =>
              if truthy_number hours
              then FileData.with_expiresAt (Some (addHours zone now hours)) fileData
              else fileData
          | _ => fileData
          end in
        fileRef ← addDoc_file newId fileData;
        _ ← updateUserStorage userId (File.size file) true now;
        mret (fileRef, fileData)
  end.

(** The comparator of [getUserFiles]: [a] may come before [b]. *)
Definition uploadTime (f : FileData.t) : Z :=
  match FileData.uploadedAt f with
  | Some t => t
  | None => 0
  end.

Definition newest_first (a b : string * FileData.t) : Prop :=
  uploadTime b.2 <= uploadTime a.2.

#[global] Instance newest_first_dec : RelDecision newest_first.
Proof. intros a b. unfold newest_first. apply _. Defined.

(** The filter of [getUserFiles]:
    [!file.expiresAt || file.expiresAt > now]. *)
Definition notExpired (now : Z) (f : FileData.t) : bool :=
  match FileData.expiresAt f with
  | None => true
  | Some e => e >? now
  end.

(** The conversion of a document's dates in [getUserFiles]: a missing
    [uploadedAt] becomes the current time. *)
Definition withDates (now : Z) (doc : string * FileData.t) : string * FileData.t :=
  (doc.1, FileData.with_uploadedAt
            (Some (default now (FileData.uploadedAt doc.2))) doc.2).

Definition getUserFiles (userId : string) (now : Z) : Async (list (string * FileData.t)) :=
  docs ← getDocs_files (fun d => bool_decide (FileData.userId d = userId));
  let files := withDates now <$> docs in
  let validFiles := filter (fun file => notExpired now file.2) files in
  mret (merge_sort newest_first validFiles).

(** [arrayRemove(x)] on an array field. *)
Definition arrayRemove (x : string) (l : list string) : list string :=
  List.filter (fun y => negb (bool_decide (y = x))) l.

Definition deleteFile (cloud : Cloudinary.t) (fileId userId : string) (now : Z) : Async unit :=
  fileDoc ← getDoc_file fileId;
  match fileDoc with
  | None => throw FileNotFound
  | Some fileData =>
      if negb (bool_decide (FileData.userId fileData = userId))
      then throw Unauthorized
      else
        (* a refusal by the blob store is only logged *)
        _ ← fetch_destroy cloud (FileData.publicId fileData);
        _ ← updateDoc_user userId
              (fun p => UserProfile.with_updatedAt now
                          (UserProfile.with_files
                             (arrayRemove fileId (UserProfile.files p)) p));
        _ ← updateUserStorage userId (FileData.size fileData) false now;
        deleteDoc_file fileId
  end.

(** The object [updateData] of [generateShareableLink]. *)
Module UpdateData.
Record t : Type := mk {
  isPublic : bool;
  expiresAt : FieldWrite Z;
  isPasswordProtected : FieldWrite bool;
  password : FieldWrite string
}.

Definition apply (u : t) (f : FileData.t) : FileData.t :=
  FileData.mk (FileData.userId f) (FileData.name f) (FileData.size f)
    (FileData.type f) (FileData.url f) (FileData.secureUrl f)
    (FileData.publicId f)
    (isPublic u)
    (FileData.uploadedAt f) (FileData.updatedAt f)
    (write_field (expiresAt u) (FileData.expiresAt f))
    (FileData.sharedWith f)
    (write_field (isPasswordProtected u) (FileData.isPasswordProtected f))
    (write_field (password u) (FileData.password f))
    (FileData.format f) (FileData.assetId f) (FileData.width f) (FileData.height f)
    (FileData.resourceType f).

(** The store can hold the update: the expiration, if one is written, is
    a date of a [Timestamp]. *)
Definition storable (u : t) : bool :=
  match expiresAt u with
  | Write date => storableDate date
  | _ => true
  end.
End UpdateData.

(** The expiration chosen by [options?.expiresIn]. *)
Definition expiration_write (zone : TimeZone.t) (expiresIn : Nullable) (now : Z)
  : FieldWrite Z :=
  match expiresIn with
  | Num hours =>
      if truthy_number hours then Write (addHours zone now hours) else Unchanged
  | Null => DeleteField
  | Undefined => Unchanged
  end.

(** The object [updateData] as [generateShareableLink] fills it: first
    [isPublic], then the expiration, then the password. *)
Definition updateData (zone : TimeZone.t) (options : option Options.t) (now : Z)
  : UpdateData.t :=
  let updateData :=
    UpdateData.mk true (expiration_write zone (opt_expiresIn options) now)
                  Unchanged Unchanged in
  match opt_password options with
  | Some pw =>
      if truthy_string pw
      then UpdateData.mk (UpdateData.isPublic updateData)
             (UpdateData.expiresAt updateData)
             (Write true) (Write (hashPassword pw))
      else updateData
  | None => updateData
  end.

Definition generateShareableLink (origin : string) (fileId userId : string)
    (options : option Options.t) (now : Z) : Async string :=
  fileDoc ← getDoc_file fileId;
  match fileDoc with
  | None => throw FileNotFound
  | Some fileData =>
      if negb (bool_decide (FileData.userId fileData = userId))
      then throw NoPermissionToShare
      else
        zone ← localTimeZone;
        let updateData := updateData zone options now in
        (* [updateDoc] refuses a date that no [Timestamp] holds *)
        if negb (UpdateData.storable updateData)
        then throw InvalidData
        else
          _ ← updateDoc_file fileId (UpdateData.apply updateData);
          mret (origin +:+ "/files/" +:+ fileId)
  end.

Definition verifyFilePassword (fileId password : string) : Async bool :=
  try_catch
    (fileDoc ← getDoc_file fileId;
     match fileDoc with
     | None => throw FileNotFound
     | Some fileData =>
         if negb (FileData.protected fileData)
         then mret true
         else mret (bool_decide (FileData.password fileData = Some (hashPassword password)))
     end)
    (fun _ => mret false).

Definition getPublicFile (fileId : string) (now : Z) : Async (option (string * FileData.t)) :=
  try_catch
    (fileDoc ← getDoc_file fileId;
     match fileDoc with
     | None => mret None
     | Some fileData =>
         if negb (FileData.isPublic fileData)
         then mret None
         else
           match FileData.expiresAt fileData with
           | Some expirationDate =>
               if now >? expirationDate
               then mret None
               else mret (Some (fileId, fileData))
           | None => mret (Some (fileId, fileData))
           end
     end)
    (fun _ => mret None).

(** The query of [cleanupExpiredFiles]:
    [where('expiresAt', '<', now)] and [where('isPublic', '==', true)]. *)
Definition expiredFilesQuery (now : Z) (f : FileData.t) : bool :=
  match FileData.expiresAt f with
  | Some e => (e <? now) && FileData.isPublic f
  | None => false
  end.

(** The callback that [cleanupExpiredFiles] maps over the documents of
    its query. *)
Definition autoDelete (cloud : Cloudinary.t) (now : Z) (docSnapshot : string * FileData.t)
  : Async unit :=
  let fileData := docSnapshot.2 in
  try_catch
    (if truthy_string (FileData.userId fileData)
     then deleteFile cloud docSnapshot.1 (FileData.userId fileData) now
     else mret tt)
    (fun _ => mret tt).

(** The deletions of one sweep are started together and awaited with
    [Promise.all]; here they run one after the other. A deletion reads
    and writes its record and the profile of the record's owner only, so
    that deletions for different owners give the same world in every
    order and interleaving. Two deletions for one owner may interleave so
    that both read the same [usedStorage] and one release is lost: the
    theorems on the bytes that a sweep releases either take matched
    records of different owners, or say only that the bytes released are
    the sizes of some public records that the sweep removed. *)
Definition cleanupExpiredFiles (cloud : Cloudinary.t) (now : Z) : Async nat :=
  querySnapshot ← getDocs_files (expiredFilesQuery now);
  _ ← forEach (autoDelete cloud now) querySnapshot;
  mret (length querySnapshot).


(** The quota ledger [us'] is [us] with [delta u] bytes released for each
    user [u]. *)
Definition quota_released (delta : string -> Z) (us us' : gmap string UserProfile.t) : Prop :=
  forall u p,
    us !! u = Some p ->
    exists p',
      us' !! u = Some p'
      /\ UserProfile.totalStorage p' = UserProfile.totalStorage p
      /\ UserProfile.usedStorage p' = UserProfile.usedStorage p - delta u.

(** The bytes of the records in [removed] that belong to [uid]. *)
Definition releasedBytes (uid : string) (removed : list (string * FileData.t)) : Z :=
  foldr (fun doc acc =>
           (if bool_decide (FileData.userId doc.2 = uid) then FileData.size doc.2 else 0)
           + acc)
        0 removed.

(** ** FileList.tsx: the link dialog *)

(** The [options] that [handleShareFile] builds from the dialog's state:
    the file shown, the hours typed ([''] is [None]), the check box and
    the password typed. *)
Definition shareOptions (currentFile : FileData.t) (expirationHours : option Q)
    (passwordProtect : bool) (password : string) : Options.t :=
  let expiresIn :=
    match expirationHours with
    | Some h =>
        if truthy_number h then Num h
        else if bool_decide (is_Some (FileData.expiresAt currentFile)) then Null
        else Undefined
    | None =>
        if bool_decide (is_Some (FileData.expiresAt currentFile)) then Null
        else Undefined
    end in
  let pw :=
    if passwordProtect && negb (FileData.protected currentFile)
       && truthy_string (trim password)
    then Some (trim password)
    else None in
  Options.mk expiresIn pw.

Definition handleShareFile (origin : string) (uid : string)
    (currentFile : string * FileData.t) (expirationHours : option Q)
    (passwordProtect : bool) (password : string) (now : Z) : Async unit :=
  try_catch
    (_ ← generateShareableLink origin currentFile.1 uid
           (Some (shareOptions currentFile.2 expirationHours passwordProtect password)) now;
     mret tt)
    (fun _ => mret tt).


(** The object [fileData] that [uploadFile] builds, for the answer
    [response] of the blob store and in the time zone [zone]. *)
Definition uploadedFileData (zone : TimeZone.t) (file : File.t) (userId : string)
    (options : option Options.t) (now : Z) (response : Cloudinary.data) : FileData.t :=
  let fileData :=
    FileData.mk userId (File.name file) (File.size file) (File.type file)
      (Cloudinary.url response) (Cloudinary.secure_url response)
      (Cloudinary.public_id response)
      false (Some now) (Some now) None [] None None
      (Cloudinary.format response) (Cloudinary.asset_id response)
      (Cloudinary.width response) (Cloudinary.height response)
      (Cloudinary.resource_type response) in
  let fileData :=
    match opt_password options with
    | Some pw =>
        if truthy_string pw
        then FileData.with_protection (Some true) (Some (hashPassword pw)) fileData
        else fileData
    | None => fileData
    end in
  match opt_expiresIn options with
  | Num hours =>
      if truthy_number hours
      then FileData.with_expiresAt (Some (addHours zone now hours)) fileData
      else fileData
  | _ => fileData
  end.


(** The answer of the blob store names the blob. *)
Definition names_blob (response : Cloudinary.data) : bool :=
  truthy_field (Cloudinary.public_id response)
  || truthy_field (Cloudinary.secure_url response).

(** ** fileService.ts: sharing with a named user *)

(** [arrayUnion(x)] on an array field. *)
Definition arrayUnion (x : string) (l : list string) : list string :=
  if bool_decide (x ∈ l) then l else l ++ [x].

Definition set_sharedWith (v : list string) (f : FileData.t) : FileData.t :=
  FileData.mk (FileData.userId f) (FileData.name f) (FileData.size f)
    (FileData.type f) (FileData.url f) (FileData.secureUrl f) (FileData.publicId f)
    (FileData.isPublic f) (FileData.uploadedAt f) (FileData.updatedAt f)
    (FileData.expiresAt f) v (FileData.isPasswordProtected f) (FileData.password f)
    (FileData.format f) (FileData.assetId f) (FileData.width f) (FileData.height f)
    (FileData.resourceType f).

Definition shareFile (fileId userId email : string) : Async unit :=
  fileDoc ← getDoc_file fileId;
  match fileDoc with
  | None => throw FileNotFound
  | Some fileData =>
      if negb (bool_decide (FileData.userId fileData = userId))
      then throw NoPermissionToShare
      else updateDoc_file fileId
             (fun f => set_sharedWith (arrayUnion email (FileData.sharedWith f)) f)
  end.

Definition getSharedFiles (email : string) : Async (list (string * FileData.t)) :=
  try_catch
    (getDocs_files (fun d => bool_decide (email ∈ FileData.sharedWith d)))
    (fun _ => mret []).

(** ** FileList.tsx: opening the link dialog *)

(** The state of the dialog: the hours field ([''] is [None]), the check
    box and the password field. *)
Module Dialog.
Record t : Type := mk {
  expirationHours : option Q;
  passwordProtect : bool;
  password : string
}.
End Dialog.

(** [Math.ceil(a / b)] for integers [a] and [b > 0]. *)
Definition ceilDiv (a b : Z) : Z := - ((- a) / b).

(** [openShareModal]: the hours left until the expiration, rounded up and
    not below zero; the check box as the file's protection; an empty
    password. *)
Definition openShareModal (file : FileData.t) (now : Z) : Dialog.t :=
  Dialog.mk
    match FileData.expiresAt file with
    | Some expiry => Some (inject_Z (Z.max 0 (ceilDiv (expiry - now) (1000 * 60 * 60))))
    | None => None
    end
    (FileData.protected file)
    "".

(** [handleShareFile] on the state of the dialog. *)
Definition saveDialog (origin uid : string) (currentFile : string * FileData.t)
    (d : Dialog.t) (now : Z) : Async unit :=
  handleShareFile origin uid currentFile (Dialog.expirationHours d)
    (Dialog.passwordProtect d) (Dialog.password d) now.

(** ** ExpirationChecker.tsx *)

Module TimeLeft.
Record t : Type := mk { days : Z; hours : Z; minutes : Z }.
End TimeLeft.

(** [calculateTimeLeft]: [None] when the file has expired, which is when
    [onExpired] is called. *)
Definition calculateTimeLeft (now expirationDate : Z) : option TimeLeft.t :=
  let diff := expirationDate - now in
  if diff <=? 0 then None
  else Some (TimeLeft.mk
               (diff / (1000 * 60 * 60 * 24))
               ((diff mod (1000 * 60 * 60 * 24)) / (1000 * 60 * 60))
               ((diff mod (1000 * 60 * 60)) / (1000 * 60))).

(** ** Sequences of calls to fileService.ts *)

Inductive Call : Type :=
  | CallUploadFile (cloud : Cloudinary.t) (newId : string) (file : File.t)
      (userId : string) (options : option Options.t)
  | CallDeleteFile (cloud : Cloudinary.t) (fileId userId : string)
  | CallShareFile (fileId userId email : string)
  | CallGenerateShareableLink (origin fileId userId : string) (options : option Options.t)
  | CallVerifyFilePassword (fileId password : string)
  | CallGetPublicFile (fileId : string)
  | CallGetUserFiles (userId : string)
  | CallGetSharedFiles (email : string)
  | CallCleanupExpiredFiles (cloud : Cloudinary.t).

(** The world after a call made at time [now]. *)
Definition perform (c : Call) (now : Z) (w : World) : World :=
  match c with
  | CallUploadFile cloud newId file userId options =>
      world (uploadFile cloud newId file userId options now w)
  | CallDeleteFile cloud fileId userId => world (deleteFile cloud fileId userId now w)
  | CallShareFile fileId userId email => world (shareFile fileId userId email w)
  | CallGenerateShareableLink origin fileId userId options =>
      world (generateShareableLink origin fileId userId options now w)
  | CallVerifyFilePassword fileId password => world (verifyFilePassword fileId password w)
  | CallGetPublicFile fileId => world (getPublicFile fileId now w)
  | CallGetUserFiles userId => world (getUserFiles userId now w)
  | CallGetSharedFiles email => world (getSharedFiles email w)
  | CallCleanupExpiredFiles cloud => world (cleanupExpiredFiles cloud now w)
  end.

Fixpoint performAll (calls : list (Call * Z)) (w : World) : World :=
  match calls with
  | [] => w
  | (c, now) :: rest => performAll rest (perform c now w)
  end.

(** The call is an upload whose new document gets the id [id]. *)
Definition uploads_to (id : string) (c : Call) : bool :=
  match c with
  | CallUploadFile _ newId _ _ _ => bool_decide (newId = id)
  | _ => false
  end.

(** What a file record keeps while it exists: its owner, its size, its
    blob; and once public or protected it stays so. *)
Definition same_file (f0 f : FileData.t) : Prop :=
  FileData.userId f = FileData.userId f0
  /\ FileData.size f = FileData.size f0
  /\ FileData.publicId f = FileData.publicId f0
  /\ (FileData.isPublic f0 = true -> FileData.isPublic f = true)
  /\ (FileData.protected f0 = true -> FileData.protected f = true).

(** The record under [id] in [files'] is the one in [files], kept in the
    sense of [same_file], or it is gone; and there is none if there was
    none. *)
Definition records_kept (id : string) (files files' : gmap string FileData.t) : Prop :=
  match files !! id with
  | Some f0 =>
      match files' !! id with
      | Some f => same_file f0 f
      | None => True
      end
  | None => files' !! id = None
  end.

(** The quota ledger [us'] has every profile of [us], with the same
    [totalStorage], and with a [usedStorage] that is the same or within
    [totalStorage]. *)
Definition ledger_kept (us us' : gmap string UserProfile.t) : Prop :=
  forall u p,
    us !! u = Some p ->
    exists p',
      us' !! u = Some p'
      /\ UserProfile.totalStorage p' = UserProfile.totalStorage p
      /\ (UserProfile.usedStorage p' = UserProfile.usedStorage p
          \/ UserProfile.usedStorage p' <= UserProfile.totalStorage p').

(** The characters of a string are hexadecimal digits in lower case. *)
Fixpoint all_hex (s : string) : bool :=
  match s with
  | EmptyString => true
  | String c rest =>
      bool_decide (c ∈ list_ascii_of_string "0123456789abcdef") && all_hex rest
  end.

(** ** A small world to run the operations on *)

Module Sample.
Local Open Scope string_scope.

Definition alice : UserProfile.t :=
  UserProfile.mk "alice" "alice@example.org" 0 0 1000 600 ["report"; "notes"] [].

(** Public, expiring at time 50. *)
Definition report : FileData.t :=
  FileData.mk "alice" "report.pdf" 500 "application/pdf"
    (Some "http://blob/report") (Some "https://blob/report") (Some "ofss/alice/report")
    true (Some 10) (Some 10) (Some 50) [] None None
    (Some "pdf") (Some "asset-report") None None (Some "image").

(** Private, protected by the password "secret", expiring at time 50. *)
Definition notes : FileData.t :=
  FileData.mk "alice" "notes.txt" 100 "text/plain"
    (Some "http://blob/notes") (Some "https://blob/notes") (Some "ofss/alice/notes")
    false (Some 20) (Some 20) (Some 50) [] (Some true) (Some (hashPassword "secret"))
    None (Some "asset-notes") None None (Some "raw").

(** A browser on universal time, and a Firestore client as the library
    makes it. *)
Definition greenwich : Settings.t := Settings.mk (TimeZone.fixed 0) false.

Definition store : World :=
  mkWorld (<["report" := report]> (<["notes" := notes]> ∅))
          (<["alice" := alice]> ∅) [] greenwich.

(** The answer to the upload of an image. *)
Definition answer : Cloudinary.data :=
  Cloudinary.mkData (Some "http://blob/new") (Some "https://blob/new") (Some "ofss/alice/new")
    (Some "png") (Some "asset-new") (Some 640) (Some 480) (Some "image").

(** The answer to the upload of a file that is no image: it names the
    blob and gives no width or height. *)
Definition bare : Cloudinary.data :=
  Cloudinary.mkData (Some "http://blob/new") (Some "https://blob/new") (Some "ofss/alice/new")
    None (Some "asset-new") None None (Some "raw").

(** A blob store that answers every request. *)
Definition online : Cloudinary.t :=
  Cloudinary.mk (Cloudinary.UploadAnswers answer) (fun _ => Cloudinary.DestroyAnswers true).

(** A blob store that cannot be reached. *)
Definition offline : Cloudinary.t :=
  Cloudinary.mk Cloudinary.UploadThrows (fun _ => Cloudinary.DestroyThrows).

Definition origin : string := "https://share.example.org".
End Sample.

(** ** utils/fileOperations.ts and Dashboard.tsx: the icon of a file *)

(** The object [fileTypes], its keys in the order of [Object.keys]. *)
Definition fileTypes : list (string * string) :=
    [("image/", "🖼️");
     ("video/", "🎥");
     ("audio/", "🎵");
     ("application/pdf", "📄");
     ("application/msword", "📝");
     ("application/vnd.openxmlformats-officedocument.wordprocessingml.document", "📝");
     ("application/vnd.ms-excel", "📊");
     ("application/vnd.openxmlformats-officedocument.spreadsheetml.sheet", "📊");
     ("application/zip", "📦");
     ("text/", "📝")].

(** [getFileTypeIcon]: the icon of the first key that [type] starts with,
    or the page. *)
Definition getFileTypeIcon (type : string) : string :=
  match List.find (fun entry => String.prefix entry.1 type) fileTypes with
  | Some entry => entry.2
  | None => "📄"
  end.

Fixpoint has_char (c : ascii) (s : string) : bool :=
  match s with
  | EmptyString => false
  | String c' rest => bool_decide (c' = c) || has_char c rest
  end.

(** [s.split('.').pop()]: what follows the last dot, or all of [s]. *)
Fixpoint lastSegment (s : string) : string :=
  match s with
  | EmptyString => EmptyString
  | String c rest =>
      if has_char "."%char rest then lastSegment rest
      else if bool_decide (c = "."%char) then rest
      else s
  end.

(** [s.toLowerCase()], for the letters of ASCII. *)
Definition lower (c : ascii) : ascii :=
  let n := N_of_ascii c in
  if ((65 <=? n) && (n <=? 90))%N then ascii_of_N (n + 32) else c.

Fixpoint toLowerCase (s : string) : string :=
  match s with
  | EmptyString => EmptyString
  | String c rest => String (lower c) (toLowerCase rest)
  end.

(** The icon that the Dashboard shows beside an upload in progress:
    [getFileTypeIcon(fileName.split('.').pop()?.toLowerCase() || '')]. *)
Definition progressIcon (fileName : string) : string :=
  getFileTypeIcon (toLowerCase (lastSegment fileName)).

(** The byte [b] is printed by [hashPassword] as two hexadecimal digits. *)
Definition two_hex_digits (b : Z) : bool :=
  let s := padStart2 (toString16 b) in
  Nat.eqb (String.length s) 2 && all_hex s.

(** More sample data: an upload of 300 bytes with a password and an
    expiration of two hours, a second user, and a store after some
    sharing. *)
Module Scenario.
Local Open Scope string_scope.

Definition photo : File.t := File.mk "photo.png" 300 "image/png".

Definition guarded : option Options.t := Some (Options.mk (Num 2) (Some "pw")).

Definition bob : UserProfile.t :=
  UserProfile.mk "bob" "bob@example.org" 0 0 1000 0 [] [].

(** The sample store with a second user. *)
Definition town : World :=
  mkWorld (fileDocs Sample.store) (<["bob" := bob]> (userDocs Sample.store)) []
          Sample.greenwich.

(** A zone on universal time until the time value [3600000], when its
    clock goes forward by an hour: the local times of that hour do not
    exist and are read with the offset before the change. *)
Definition spring : TimeZone.t :=
  TimeZone.mk (fun t => if (t <? 3600000)%Z then 0 else 3600000)
              (fun t => if (t <? 7200000)%Z then 0 else 3600000).

(** The sample store seen from a browser in that zone. *)
Definition springtime : World :=
  mkWorld (fileDocs Sample.store) (userDocs Sample.store) []
          (Settings.mk spring false).

(** A blob store that answers an upload without the properties of an
    image. *)
Definition plain : Cloudinary.t :=
  Cloudinary.mk (Cloudinary.UploadAnswers Sample.bare)
                (fun _ => Cloudinary.DestroyAnswers true).

(** The sample store behind a Firestore client that ignores undefined
    properties. *)
Definition lenient : World :=
  mkWorld (fileDocs Sample.store) (userDocs Sample.store) []
          (Settings.mk (TimeZone.fixed 0) true).

(** The password "secret" between two no-break spaces (U+00A0). *)
Definition padded : string :=
  of_codes [194; 160]%N +:+ "secret" +:+ of_codes [194; 160]%N.

(** A blob store that answers but refuses to destroy. *)
Definition refusing : Cloudinary.t :=
  Cloudinary.mk (Cloudinary.UploadAnswers Sample.answer)
                (fun _ => Cloudinary.DestroyAnswers false).
End Scenario.

(** ** Running the monad *)

Lemma run_bind {A B : Type} (m : Async A) (k : A -> Async B) (w : World) :
  (m ≫= k) w =
  match m w with
  | (Returned a, w') => k a w'
  | (Thrown e, w') => (Thrown e, w')
  end.
Proof. reflexivity. Qed.

Lemma run_ret {A : Type} (a : A) (w : World) :
  (mret a : Async A) w = (Returned a, w).
Proof. reflexivity. Qed.

Lemma world_pair {A : Type} (o : Outcome A) (w : World) : world (o, w) = w.
Proof. reflexivity. Qed.

Lemma result_pair {A : Type} (o : Outcome A) (w : World) : result (o, w) = o.
Proof. reflexivity. Qed.

Lemma gtb_false_iff (a b : Z) : (a >? b) = false <-> a <= b.
Proof. rewrite Z.gtb_ltb, Z.ltb_ge. reflexivity. Qed.

Lemma gtb_true_iff (a b : Z) : (a >? b) = true <-> b < a.
Proof. rewrite Z.gtb_ltb, Z.ltb_lt. reflexivity. Qed.

(** ** Dates: whole hours, and zones that keep their offset *)







Ltac unfold_primitives :=
  unfold try_catch, throw, getDoc_file, getDoc_user, getUserProfile, localTimeZone.

Ltac reduce_negb := cbn [negb].

Ltac run :=
  repeat first
    [ rewrite run_bind
    | rewrite run_ret
    | progress unfold_primitives
    | progress reduce_negb ].

(** ** [hashPassword] on the test vectors of SHA-256 *)

Example hashPassword_empty :
  hashPassword "" = "e3b0c44298fc1c149afbf4c8996fb92427ae41e4649b934ca495991b7852b855".
Proof. vm_compute. reflexivity. Qed.

Example hashPassword_abc :
  hashPassword "abc" = "ba7816bf8f01cfea414140de5dae2223b00361a396177a9cb410ff61f20015ad".
Proof. vm_compute. reflexivity. Qed.

Example hashPassword_two_blocks :
  hashPassword "abcdbcdecdefdefgefghfghighijhijkijkljklmklmnlmnomnopnopq"
  = "248d6a61d20638b8e5c026930c3e6039a33ce45964ff2167f6ecedd419db06c1".
Proof. vm_compute. reflexivity. Qed.

(** ** [trim] *)

Example trim_strips_white_space :
  trim (String.String "009" (String.String "010" "  a b  ")) = "a b"
  /\ trim "   " = ""
  /\ trim "ab" = "ab".
Proof. vm_compute. repeat split. Qed.

(** White space beyond ASCII is stripped as well, and only at the two
    ends. *)
Example trim_strips_no_break_spaces :
  trim Scenario.padded = "secret"
  /\ trim ("a" +:+ Scenario.padded +:+ "b") = "a" +:+ Scenario.padded +:+ "b".
Proof. vm_compute. split; reflexivity. Qed.

(** ** The quota check of [uploadFile] *)

(** C7. When [usedStorage + file.size > totalStorage], [uploadFile] throws
    the quota error and leaves the whole world as it was: no request has
    reached the blob store, no file document exists that did not, and the
    user's [usedStorage] is what it was. *)
Theorem uploadFile_quota_fails_closed
    (cloud : Cloudinary.t) (newId : string) (file : File.t) (userId : string)
    (options : option Options.t) (now : Z) (w : World) (p : UserProfile.t) :
  userDocs w !! userId = Some p ->
  UserProfile.usedStorage p + File.size file > UserProfile.totalStorage p ->
  uploadFile cloud newId file userId options now w = (Thrown StorageQuotaExceeded, w).
Proof.
  intros Hp Hquota. unfold uploadFile. run. rewrite Hp.
  apply Z.gt_lt, gtb_true_iff in Hquota. rewrite Hquota. reflexivity.
Qed.

Lemma uploadFile_quota_fails_closed_witness :
  uploadFile Sample.online "new" (File.mk "big.bin" 500 "application/octet-stream")
    "alice" None 7 Sample.store
  = (Thrown StorageQuotaExceeded, Sample.store).
Proof.
  apply (uploadFile_quota_fails_closed _ _ _ _ _ _ _ Sample.alice).
  - vm_compute. reflexivity.
  - vm_compute. reflexivity.
Defined.

(** When the check passes, the first thing that happens is the request to
    the blob store. *)
Lemma uploadFile_within_quota_reaches_blob_store
    (cloud : Cloudinary.t) (newId : string) (file : File.t) (userId : string)
    (options : option Options.t) (now : Z) (w : World) (p : UserProfile.t) :
  userDocs w !! userId = Some p ->
  UserProfile.usedStorage p + File.size file <= UserProfile.totalStorage p ->
  exists rest,
    blobRequests (world (uploadFile cloud newId file userId options now w))
    = blobRequests w
      ++ Cloudinary.Upload ("ofss/" +:+ userId) (File.name file) (File.size file) :: rest.
Proof.
  intros Hp Hquota. unfold uploadFile. run. rewrite Hp.
  apply gtb_false_iff in Hquota. rewrite Hquota.
  exists []. unfold uploadToCloudinary, fetch_upload. run.
  destruct (Cloudinary.onUpload cloud) as [|d]; [reflexivity|].
  destruct (negb _ && negb _); [reflexivity|]. run.
  unfold addDoc_file. cbn [settings]. destruct (acceptable _ _); [|reflexivity].
  unfold updateUserStorage. run. cbn [userDocs].
  rewrite Hp.
  destruct (_ >? _); [reflexivity|].
  unfold updateUserProfile, updateDoc_user. cbn [userDocs]. rewrite Hp. reflexivity.
Qed.

(** The scenario of a quota of 1000 bytes: 600 bytes are accepted and
    counted, 500 more are refused and nothing changes. *)
Example uploadFile_scenario :
  let empty : World :=
    mkWorld ∅ (<["a" := UserProfile.mk "a" "a@example.org" 0 0 1000 0 [] []]> ∅) []
            Sample.greenwich in
  let first :=
    uploadFile Sample.online "f1" (File.mk "one.bin" 600 "application/octet-stream")
      "a" None 1 empty in
  let second :=
    uploadFile Sample.online "f2" (File.mk "two.bin" 500 "application/octet-stream")
      "a" None 2 (world first) in
  (UserProfile.usedStorage <$> userDocs (world first) !! "a") = Some 600
  /\ is_Some (fileDocs (world first) !! "f1")
  /\ second = (Thrown StorageQuotaExceeded, world first).
Proof. vm_compute. repeat split. eexists. reflexivity. Qed.

(** ** [verifyFilePassword] *)

Lemma verifyFilePassword_found (fileId password : string) (w : World) (f : FileData.t) :
  fileDocs w !! fileId = Some f ->
  verifyFilePassword fileId password w =
  (Returned (if FileData.protected f
             then bool_decide (FileData.password f = Some (hashPassword password))
             else true), w).
Proof.
  intros Hf. unfold verifyFilePassword. run. rewrite Hf.
  destruct (FileData.protected f); reflexivity.
Qed.

(** C8. On an unprotected file [verifyFilePassword] returns [true] whatever
    the password; on a protected file it returns whether the stored hash is
    the SHA-256 digest of the supplied password, so that the original
    password gives [true] and a password with another digest gives
    [false]. *)
Theorem verifyFilePassword_checks_digest (fileId : string) (w : World) (f : FileData.t) :
  fileDocs w !! fileId = Some f ->
  (FileData.protected f = false ->
   forall password, verifyFilePassword fileId password w = (Returned true, w))
  /\ (FileData.protected f = true ->
      forall password,
        verifyFilePassword fileId password w
        = (Returned (bool_decide (FileData.password f = Some (hashPassword password))), w))
  /\ (FileData.protected f = true ->
      forall original, FileData.password f = Some (hashPassword original) ->
        verifyFilePassword fileId original w = (Returned true, w)
        /\ forall other, hashPassword other <> hashPassword original ->
             verifyFilePassword fileId other w = (Returned false, w)).
Proof.
  intros Hf. split; [| split].
  - intros Hopen password. rewrite (verifyFilePassword_found _ _ _ _ Hf), Hopen. reflexivity.
  - intros Hprot password. rewrite (verifyFilePassword_found _ _ _ _ Hf), Hprot. reflexivity.
  - intros Hprot original Hstored. split.
    + rewrite (verifyFilePassword_found _ _ _ _ Hf), Hprot.
      rewrite bool_decide_eq_true_2; [reflexivity | exact Hstored].
    + intros other Hother. rewrite (verifyFilePassword_found _ _ _ _ Hf), Hprot.
      rewrite bool_decide_eq_false_2; [reflexivity |]. congruence.
Qed.

Lemma verifyFilePassword_checks_digest_witness :
  verifyFilePassword "notes" "secret" Sample.store = (Returned true, Sample.store)
  /\ verifyFilePassword "notes" "wrong" Sample.store = (Returned false, Sample.store)
  /\ verifyFilePassword "report" "anything" Sample.store = (Returned true, Sample.store).
Proof.
  assert (Hnotes : fileDocs Sample.store !! "notes" = Some Sample.notes)
    by (vm_compute; reflexivity).
  assert (Hreport : fileDocs Sample.store !! "report" = Some Sample.report)
    by (vm_compute; reflexivity).
  destruct (verifyFilePassword_checks_digest "notes" Sample.store Sample.notes Hnotes)
    as (_ & _ & Hprot).
  destruct (Hprot eq_refl "secret" eq_refl) as [Hsame Hother].
  destruct (verifyFilePassword_checks_digest "report" Sample.store Sample.report Hreport)
    as (Hopen & _).
  split; [exact Hsame | split].
  - apply Hother. vm_compute. discriminate.
  - apply Hopen. reflexivity.
Defined.

(** C10. For a file id without a document, [verifyFilePassword] returns
    [false] and does not throw: the answer is the one a wrong password
    gets on a protected file. *)
Theorem verifyFilePassword_missing_file (fileId password : string) (w : World) :
  fileDocs w !! fileId = None ->
  verifyFilePassword fileId password w = (Returned false, w)
  /\ forall (w' : World) (f : FileData.t),
       fileDocs w' !! fileId = Some f ->
       FileData.protected f = true ->
       FileData.password f <> Some (hashPassword password) ->
       result (verifyFilePassword fileId password w')
       = result (verifyFilePassword fileId password w).
Proof.
  intros Hnone.
  assert (Hmiss : verifyFilePassword fileId password w = (Returned false, w)).
  { unfold verifyFilePassword. run. rewrite Hnone. reflexivity. }
  split; [exact Hmiss |].
  intros w' f Hf Hprot Hwrong.
  rewrite Hmiss, (verifyFilePassword_found _ _ _ _ Hf), Hprot.
  rewrite bool_decide_eq_false_2; [reflexivity | assumption].
Qed.

Lemma verifyFilePassword_missing_file_witness :
  verifyFilePassword "nowhere" "secret" Sample.store = (Returned false, Sample.store).
Proof.
  apply (verifyFilePassword_missing_file "nowhere" "secret" Sample.store).
  vm_compute. reflexivity.
Defined.

(** ** [getPublicFile] *)

Lemma getPublicFile_unfold (fileId : string) (now : Z) (w : World) :
  getPublicFile fileId now w =
  (Returned
     match fileDocs w !! fileId with
     | None => None
     | Some f =>
         if FileData.isPublic f
         then match FileData.expiresAt f with
              | Some e => if now >? e then None else Some (fileId, f)
              | None => Some (fileId, f)
              end
         else None
     end, w).
Proof.
  unfold getPublicFile. run.
  destruct (fileDocs w !! fileId) as [f|]; [|reflexivity].
  destruct (FileData.isPublic f); [|reflexivity].
  destruct (FileData.expiresAt f) as [e|]; [|reflexivity].
  destruct (now >? e); reflexivity.
Qed.

(** C4, as the code has it. [getPublicFile] returns [null] when the document
    is missing, when [isPublic] is false, and when [expiresAt] is present
    and earlier than [now]; it returns the record when [isPublic] is true
    and [expiresAt] is absent or not earlier than [now], the instant
    [expiresAt = now] included. *)
Theorem getPublicFile_gate (fileId : string) (now : Z) (w : World) :
  (fileDocs w !! fileId = None -> getPublicFile fileId now w = (Returned None, w))
  /\ (forall f, fileDocs w !! fileId = Some f -> FileData.isPublic f = false ->
        getPublicFile fileId now w = (Returned None, w))
  /\ (forall f e, fileDocs w !! fileId = Some f -> FileData.expiresAt f = Some e ->
        e < now -> getPublicFile fileId now w = (Returned None, w))
  /\ (forall f e, fileDocs w !! fileId = Some f -> FileData.isPublic f = true ->
        FileData.expiresAt f = Some e -> now <= e ->
        getPublicFile fileId now w = (Returned (Some (fileId, f)), w))
  /\ (forall f, fileDocs w !! fileId = Some f -> FileData.isPublic f = true ->
        FileData.expiresAt f = None ->
        getPublicFile fileId now w = (Returned (Some (fileId, f)), w)).
Proof.
  rewrite getPublicFile_unfold. repeat split.
  - intros ->. reflexivity.
  - intros f -> ->. reflexivity.
  - intros f e -> -> Hpast. apply gtb_true_iff in Hpast. rewrite Hpast.
    destruct (FileData.isPublic f); reflexivity.
  - intros f e -> -> -> Hfuture. apply gtb_false_iff in Hfuture. rewrite Hfuture.
    reflexivity.
  - intros f -> -> ->. reflexivity.
Qed.

Lemma getPublicFile_gate_witness :
  getPublicFile "report" 51 Sample.store = (Returned None, Sample.store)
  /\ getPublicFile "report" 49 Sample.store
     = (Returned (Some ("report", Sample.report)), Sample.store)
  /\ getPublicFile "notes" 49 Sample.store = (Returned None, Sample.store)
  /\ getPublicFile "nowhere" 49 Sample.store = (Returned None, Sample.store).
Proof.
  assert (Hreport : fileDocs Sample.store !! "report" = Some Sample.report)
    by (vm_compute; reflexivity).
  assert (Hnotes : fileDocs Sample.store !! "notes" = Some Sample.notes)
    by (vm_compute; reflexivity).
  split; [| split; [| split]].
  - apply (proj1 (proj2 (proj2 (getPublicFile_gate "report" 51 Sample.store)))
             Sample.report 50 Hreport eq_refl).
    reflexivity.
  - apply (proj1 (proj2 (proj2 (proj2 (getPublicFile_gate "report" 49 Sample.store))))
             Sample.report 50 Hreport eq_refl eq_refl).
    discriminate.
  - apply (proj1 (proj2 (getPublicFile_gate "notes" 49 Sample.store))
             Sample.notes Hnotes eq_refl).
  - apply (proj1 (getPublicFile_gate "nowhere" 49 Sample.store)).
    vm_compute. reflexivity.
Defined.

(** C4 as the specification states it fails at the boundary: at the
    instant [now = expiresAt] the record is still returned. *)
Lemma getPublicFile_serves_at_expiry_instant :
  fileDocs Sample.store !! "report" = Some Sample.report
  /\ FileData.expiresAt Sample.report = Some 50
  /\ 50 <= 50
  /\ result (getPublicFile "report" 50 Sample.store)
     = Returned (Some ("report", Sample.report)).
Proof. vm_compute. repeat split; discriminate. Qed.

(** ** [generateShareableLink] *)

Lemma generateShareableLink_by_owner
    (origin fileId : string) (options : option Options.t) (now : Z)
    (w : World) (f : FileData.t) :
  fileDocs w !! fileId = Some f ->
  generateShareableLink origin fileId (FileData.userId f) options now w
  = if UpdateData.storable (updateData (zoneOf w) options now)
    then (Returned (origin +:+ "/files/" +:+ fileId),
          mkWorld (<[fileId := UpdateData.apply (updateData (zoneOf w) options now) f]>
                     (fileDocs w))
                  (userDocs w) (blobRequests w) (settings w))
    else (Thrown InvalidData, w).
Proof.
  intros Hf. unfold generateShareableLink. run. rewrite Hf.
  rewrite bool_decide_eq_true_2 by reflexivity. run. cbn zeta.
  destruct (UpdateData.storable _); run; [| reflexivity].
  unfold updateDoc_file. run. rewrite Hf. reflexivity.
Qed.

Lemma storable_updateData (zone : TimeZone.t) (options : option Options.t) (now : Z) :
  UpdateData.storable (updateData zone options now)
  = match expiration_write zone (opt_expiresIn options) now with
    | Write date => storableDate date
    | _ => true
    end.
Proof.
  unfold UpdateData.storable, updateData.
  destruct (opt_password options) as [pw|]; [| reflexivity].
  destruct (truthy_string pw); reflexivity.
Qed.

(** An update that sets no expiration is one the store can hold. *)
Lemma storable_without_hours (zone : TimeZone.t) (options : option Options.t) (now : Z) :
  opt_expiresIn options = Null \/ opt_expiresIn options = Undefined ->
  UpdateData.storable (updateData zone options now) = true.
Proof. rewrite storable_updateData. intros [-> | ->]; reflexivity. Qed.



Lemma updateData_expiresAt (zone : TimeZone.t) (options : option Options.t) (now : Z) :
  UpdateData.expiresAt (updateData zone options now)
  = expiration_write zone (opt_expiresIn options) now.
Proof.
  unfold updateData. destruct (opt_password options) as [pw|]; [|reflexivity].
  destruct (truthy_string pw); reflexivity.
Qed.

Lemma updateData_isPublic (zone : TimeZone.t) (options : option Options.t) (now : Z) :
  UpdateData.isPublic (updateData zone options now) = true.
Proof.
  unfold updateData. destruct (opt_password options) as [pw|]; [|reflexivity].
  destruct (truthy_string pw); reflexivity.
Qed.

Lemma truthy_string_true (s : string) : s <> "" -> truthy_string s = true.
Proof. intros Hs. unfold truthy_string. rewrite bool_decide_eq_false_2; done. Qed.




(** Nor is a number of hours added that leads beyond the dates of a
    [Timestamp]: the update is refused and nothing is written, the
    password that came with it included. *)
Example generateShareableLink_refuses_a_far_date :
  generateShareableLink Sample.origin "notes" "alice"
    (Some (Options.mk (Num 80000000) (Some "other"))) 7 Sample.store
  = (Thrown InvalidData, Sample.store).
Proof. vm_compute. reflexivity. Qed.

(** Nor are whole hours added as such across a change of the clock: in a
    zone whose clock goes forward by an hour, two hours asked for before
    the change end one hour after [now]. *)
Example generateShareableLink_across_a_clock_change :
  (FileData.expiresAt
     <$> fileDocs (world (generateShareableLink Sample.origin "report" "alice"
                            (Some (Options.mk (Num 2) None)) 7 Scenario.springtime))
           !! "report")
  = Some (Some (7 + 1 * 3600000)).
Proof. vm_compute. reflexivity. Qed.

Lemma updateData_password (zone : TimeZone.t) (options : option Options.t) (now : Z)
    (f : FileData.t) :
  FileData.password (UpdateData.apply (updateData zone options now) f)
  = match opt_password options with
    | Some pw => if truthy_string pw then Some (hashPassword pw) else FileData.password f
    | None => FileData.password f
    end.
Proof.
  unfold updateData. destruct (opt_password options) as [pw|]; [|reflexivity].
  destruct (truthy_string pw); reflexivity.
Qed.

Lemma updateData_isPasswordProtected (zone : TimeZone.t) (options : option Options.t)
    (now : Z) (f : FileData.t) :
  FileData.isPasswordProtected (UpdateData.apply (updateData zone options now) f)
  = match opt_password options with
    | Some pw => if truthy_string pw then Some true else FileData.isPasswordProtected f
    | None => FileData.isPasswordProtected f
    end.
Proof.
  unfold updateData. destruct (opt_password options) as [pw|]; [|reflexivity].
  destruct (truthy_string pw); reflexivity.
Qed.

Lemma handleShareFile_world
    (origin uid : string) (currentFile : string * FileData.t)
    (expirationHours : option Q) (passwordProtect : bool) (password : string)
    (now : Z) (w : World) :
  world (handleShareFile origin uid currentFile expirationHours passwordProtect password now w)
  = world (generateShareableLink origin currentFile.1 uid
             (Some (shareOptions currentFile.2 expirationHours passwordProtect password))
             now w).
Proof.
  unfold handleShareFile. run.
  destruct (generateShareableLink _ _ _ _ _ w) as [[link|e] w']; reflexivity.
Qed.

Lemma shareOptions_of_protected_file
    (shown : FileData.t) (expirationHours : option Q) (passwordProtect : bool)
    (password : string) :
  FileData.protected shown = true ->
  Options.password (shareOptions shown expirationHours passwordProtect password) = None.
Proof.
  intros Hshown. unfold shareOptions. cbn [Options.password].
  rewrite Hshown. destruct passwordProtect; reflexivity.
Qed.

(** C1, as the code has it. On a file with [isPasswordProtected = true],
    a call of [generateShareableLink] by the owner keeps the flag [true];
    it keeps the stored hash when [options.password] is missing or empty
    and stores the hash of [options.password] otherwise, when the store
    takes the update. The gate is in the caller: [handleShareFile] passes
    no password for a file that the dialog shows as protected, so a call
    through the dialog keeps the stored hash. *)
Theorem generateShareableLink_on_protected_file
    (origin fileId : string) (options : option Options.t) (now : Z)
    (w : World) (f : FileData.t) :
  fileDocs w !! fileId = Some f ->
  FileData.isPasswordProtected f = Some true ->
  (exists f',
     fileDocs (world (generateShareableLink origin fileId (FileData.userId f) options now w))
       !! fileId = Some f'
     /\ FileData.isPasswordProtected f' = Some true
     /\ (forall pw, opt_password options = Some pw -> pw <> "" ->
         UpdateData.storable (updateData (zoneOf w) options now) = true ->
         FileData.password f' = Some (hashPassword pw))
     /\ (opt_password options = None \/ opt_password options = Some "" ->
         FileData.password f' = FileData.password f))
  /\ (forall shown expirationHours passwordProtect typed,
        FileData.protected shown = true ->
        exists f',
          fileDocs (world (handleShareFile origin (FileData.userId f) (fileId, shown)
                             expirationHours passwordProtect typed now w))
            !! fileId = Some f'
          /\ FileData.isPasswordProtected f' = Some true
          /\ FileData.password f' = FileData.password f).
Proof.
  intros Hf Hflag. split.
  - rewrite (generateShareableLink_by_owner _ _ _ _ _ _ Hf).
    destruct (UpdateData.storable (updateData (zoneOf w) options now)).
    + exists (UpdateData.apply (updateData (zoneOf w) options now) f).
      unfold world. cbn [snd fileDocs].
      split; [apply lookup_insert_eq |].
      rewrite updateData_isPasswordProtected, updateData_password, Hflag.
      split; [| split].
      * destruct (opt_password options) as [pw|]; [|reflexivity].
        destruct (truthy_string pw); reflexivity.
      * intros pw -> Hpw _. rewrite (truthy_string_true _ Hpw). reflexivity.
      * intros [-> | ->]; reflexivity.
    + exists f. rewrite world_pair.
      split; [exact Hf |]. split; [exact Hflag |].
      split; [intros pw _ _ Hstorable; discriminate | reflexivity].
  - intros shown expirationHours passwordProtect typed Hshown.
    rewrite handleShareFile_world. cbn [fst snd].
    rewrite (generateShareableLink_by_owner _ _ _ _ _ _ Hf).
    destruct (UpdateData.storable _).
    + exists (UpdateData.apply
                (updateData (zoneOf w)
                   (Some (shareOptions shown expirationHours passwordProtect typed)) now)
                f).
      unfold world. cbn [snd fileDocs].
      split; [apply lookup_insert_eq |].
      rewrite updateData_isPasswordProtected, updateData_password.
      cbn [opt_password].
      rewrite (shareOptions_of_protected_file _ _ _ _ Hshown).
      split; [exact Hflag | reflexivity].
    + exists f. rewrite world_pair. split; [exact Hf |]. split; [exact Hflag | reflexivity].
Qed.

Lemma generateShareableLink_on_protected_file_witness :
  (FileData.password
     <$> fileDocs (world (generateShareableLink Sample.origin "notes" "alice"
                            (Some (Options.mk Null None)) 7 Sample.store)) !! "notes")
  = Some (Some (hashPassword "secret"))
  /\ (FileData.password
        <$> fileDocs (world (handleShareFile Sample.origin "alice" ("notes", Sample.notes)
                               (Some 3%Q) true "other" 7 Sample.store)) !! "notes")
     = Some (Some (hashPassword "secret"))
  /\ (FileData.password
        <$> fileDocs (world (generateShareableLink Sample.origin "notes" "alice"
                               (Some (Options.mk (Num 3) (Some "other"))) 7 Sample.store))
              !! "notes")
     = Some (Some (hashPassword "other")).
Proof.
  assert (Hnotes : fileDocs Sample.store !! "notes" = Some Sample.notes)
    by (vm_compute; reflexivity).
  split; [| split].
  - destruct (generateShareableLink_on_protected_file Sample.origin "notes"
                (Some (Options.mk Null None)) 7 Sample.store Sample.notes Hnotes eq_refl)
      as [(f' & Hf' & _ & _ & Hkeep) _].
    cbn [FileData.userId Sample.notes] in Hf'. rewrite Hf'. cbn.
    rewrite (Hkeep (or_introl eq_refl)). reflexivity.
  - destruct (generateShareableLink_on_protected_file Sample.origin "notes"
                None 7 Sample.store Sample.notes Hnotes eq_refl)
      as [_ Hdialog].
    destruct (Hdialog Sample.notes (Some 3%Q) true "other" eq_refl) as (f' & Hf' & _ & Hkeep).
    cbn [FileData.userId Sample.notes] in Hf'. rewrite Hf'. cbn.
    rewrite Hkeep. reflexivity.
  - destruct (generateShareableLink_on_protected_file Sample.origin "notes"
                (Some (Options.mk (Num 3) (Some "other"))) 7 Sample.store Sample.notes
                Hnotes eq_refl)
      as [(f' & Hf' & _ & Hnew & _) _].
    cbn [FileData.userId Sample.notes] in Hf'. rewrite Hf'. cbn.
    rewrite (Hnew "other" eq_refl); [reflexivity | discriminate | vm_compute; reflexivity].
Defined.

(** C1 as the specification states it fails: the owner's call with a new
    password replaces the stored hash of a protected file. *)
Lemma generateShareableLink_replaces_hash :
  fileDocs Sample.store !! "notes" = Some Sample.notes
  /\ FileData.isPasswordProtected Sample.notes = Some true
  /\ FileData.password Sample.notes = Some (hashPassword "secret")
  /\ (FileData.password
        <$> fileDocs (world (generateShareableLink Sample.origin "notes" "alice"
                               (Some (Options.mk Undefined (Some "other"))) 7 Sample.store))
              !! "notes")
     = Some (Some (hashPassword "other"))
  /\ hashPassword "other" <> hashPassword "secret".
Proof. vm_compute. repeat split; discriminate. Qed.

(** ** [updateUserStorage] *)

Lemma updateUserStorage_unfold (uid : string) (fileSize : Z) (isAddition : bool)
    (now : Z) (w : World) (p : UserProfile.t) :
  userDocs w !! uid = Some p ->
  updateUserStorage uid fileSize isAddition now w
  = if newUsedStorage p fileSize isAddition >? UserProfile.totalStorage p
    then (Thrown StorageQuotaExceeded, w)
    else (Returned tt,
          mkWorld (fileDocs w)
            (<[uid := UserProfile.with_updatedAt now
                        (UserProfile.with_usedStorage
                           (newUsedStorage p fileSize isAddition) p)]> (userDocs w))
            (blobRequests w) (settings w)).
Proof.
  intros Hp. unfold updateUserStorage. run. rewrite Hp.
  destruct (_ >? _); [reflexivity |].
  unfold updateUserProfile, updateDoc_user. rewrite Hp. reflexivity.
Qed.

(** After a successful [updateUserStorage], in either direction, the new
    [usedStorage] is at most [totalStorage]. *)
Lemma updateUserStorage_within_total (uid : string) (fileSize : Z) (isAddition : bool)
    (now : Z) (w : World) (p : UserProfile.t) :
  userDocs w !! uid = Some p ->
  result (updateUserStorage uid fileSize isAddition now w) = Returned tt ->
  exists p',
    userDocs (world (updateUserStorage uid fileSize isAddition now w)) !! uid = Some p'
    /\ UserProfile.usedStorage p' = newUsedStorage p fileSize isAddition
    /\ UserProfile.usedStorage p' <= UserProfile.totalStorage p'.
Proof.
  intros Hp. rewrite (updateUserStorage_unfold _ _ _ _ _ _ Hp).
  destruct (_ >? _) eqn:Hcmp; [discriminate |]. intros _.
  eexists. unfold world. cbn [snd userDocs].
  split; [apply lookup_insert_eq |].
  apply gtb_false_iff in Hcmp. cbn. split; [reflexivity | exact Hcmp].
Qed.

(** C2, as the code has it. A release succeeds when the difference does
    not exceed [totalStorage]; the new [usedStorage] is then the old one
    minus the released bytes, not clamped: it is at most [totalStorage],
    and it is at least zero when the released bytes do not exceed the old
    [usedStorage]. Otherwise the release throws and changes nothing. *)
Theorem updateUserStorage_release (uid : string) (bytes now : Z) (w : World)
    (p : UserProfile.t) :
  userDocs w !! uid = Some p ->
  let r := updateUserStorage uid bytes false now w in
  (UserProfile.usedStorage p - bytes <= UserProfile.totalStorage p ->
   result r = Returned tt
   /\ exists p',
        userDocs (world r) !! uid = Some p'
        /\ UserProfile.usedStorage p' = UserProfile.usedStorage p - bytes
        /\ UserProfile.totalStorage p' = UserProfile.totalStorage p
        /\ UserProfile.usedStorage p' <= UserProfile.totalStorage p'
        /\ (bytes <= UserProfile.usedStorage p -> 0 <= UserProfile.usedStorage p')
        /\ (UserProfile.usedStorage p < bytes -> UserProfile.usedStorage p' < 0))
  /\ (UserProfile.totalStorage p < UserProfile.usedStorage p - bytes ->
      r = (Thrown StorageQuotaExceeded, w)).
Proof.
  intros Hp r. subst r. rewrite (updateUserStorage_unfold _ _ _ _ _ _ Hp).
  unfold newUsedStorage. split.
  - intros Hfits. apply gtb_false_iff in Hfits. rewrite Hfits.
    split; [reflexivity |].
    eexists. unfold world. cbn [snd userDocs].
    split; [apply lookup_insert_eq |].
    cbn. apply gtb_false_iff in Hfits. repeat split; lia.
  - intros Hover. apply gtb_true_iff in Hover. rewrite Hover. reflexivity.
Qed.

Lemma updateUserStorage_release_witness :
  result (updateUserStorage "alice" 500 false 9 Sample.store) = Returned tt
  /\ (UserProfile.usedStorage
        <$> userDocs (world (updateUserStorage "alice" 500 false 9 Sample.store)) !! "alice")
     = Some 100.
Proof.
  assert (Halice : userDocs Sample.store !! "alice" = Some Sample.alice)
    by (vm_compute; reflexivity).
  destruct (updateUserStorage_release "alice" 500 9 Sample.store Sample.alice Halice)
    as [Hfits _].
  destruct Hfits as (Hok & p' & Hp' & Hused & _); [vm_compute; discriminate |].
  split; [exact Hok |].
  rewrite Hp'. cbn. rewrite Hused. reflexivity.
Defined.

(** C2 as the specification states it fails: a release of more bytes than
    recorded succeeds and leaves a negative [usedStorage]. *)
Lemma updateUserStorage_goes_negative :
  userDocs Sample.store !! "alice" = Some Sample.alice
  /\ UserProfile.usedStorage Sample.alice = 600
  /\ result (updateUserStorage "alice" 700 false 9 Sample.store) = Returned tt
  /\ (UserProfile.usedStorage
        <$> userDocs (world (updateUserStorage "alice" 700 false 9 Sample.store)) !! "alice")
     = Some (-100).
Proof. vm_compute. repeat split. Qed.

(** ** [getUserFiles] *)

#[global] Instance newest_first_total : Total newest_first.
Proof. intros a b. unfold newest_first. lia. Qed.

#[global] Instance newest_first_trans : Transitive newest_first.
Proof. intros a b c. unfold newest_first. lia. Qed.

Lemma getUserFiles_unfold (userId : string) (now : Z) (w : World) :
  getUserFiles userId now w
  = (Returned
       (merge_sort newest_first
          (filter (fun file => notExpired now file.2)
             (withDates now
                <$> map_to_list
                      (filter (fun kv => bool_decide (FileData.userId kv.2 = userId))
                              (fileDocs w))))), w).
Proof. reflexivity. Qed.

Lemma notExpired_iff (now : Z) (f : FileData.t) :
  notExpired now f <->
  match FileData.expiresAt f with
  | Some e => now < e
  | None => True
  end.
Proof.
  unfold notExpired. destruct (FileData.expiresAt f) as [e|]; [| done].
  rewrite Is_true_true. apply gtb_true_iff.
Qed.

(** The records that [getUserFiles] lists. *)
Lemma getUserFiles_listed (userId : string) (now : Z) (w : World) :
  exists l,
    getUserFiles userId now w = (Returned l, w)
    /\ forall id g,
         (id, g) ∈ l <->
         exists d,
           fileDocs w !! id = Some d
           /\ FileData.userId d = userId
           /\ match FileData.expiresAt d with
              | Some e => now < e
              | None => True
              end
           /\ g = FileData.with_uploadedAt
                    (Some (default now (FileData.uploadedAt d))) d.
Proof.
  eexists. split; [apply getUserFiles_unfold |].
  intros id g. rewrite merge_sort_Permutation, list_elem_of_filter, list_elem_of_fmap.
  cbn [snd]. split.
  - intros (Hlive & [id' d] & Heq & Hin). unfold withDates in Heq. cbn [fst snd] in Heq.
    injection Heq as -> ->.
    apply elem_of_map_to_list, map_lookup_filter_Some in Hin as [Hd Howner].
    cbn [snd] in Howner. apply bool_decide_unpack in Howner.
    apply notExpired_iff in Hlive. cbn in Hlive.
    exists d. done.
  - intros (d & Hd & Howner & Hlive & ->). split.
    + apply notExpired_iff. exact Hlive.
    + exists (id, d). split; [reflexivity |].
      apply elem_of_map_to_list, map_lookup_filter_Some.
      split; [exact Hd |]. cbn [snd]. apply bool_decide_pack. exact Howner.
Qed.

(** C5, as the code has it. [getUserFiles] returns the owner's records
    whose [expiresAt] is absent or later than [now], whether public or
    private, each once, with a missing [uploadedAt] replaced by [now], and
    in the order of [uploadedAt], newest first. *)
Theorem getUserFiles_unexpired_newest_first (userId : string) (now : Z) (w : World) :
  exists l,
    getUserFiles userId now w = (Returned l, w)
    /\ (forall id g,
          (id, g) ∈ l <->
          exists d,
            fileDocs w !! id = Some d
            /\ FileData.userId d = userId
            /\ match FileData.expiresAt d with
               | Some e => now < e
               | None => True
               end
            /\ g = FileData.with_uploadedAt
                     (Some (default now (FileData.uploadedAt d))) d)
    /\ NoDup l.*1
    /\ StronglySorted (fun a b => uploadTime b.2 <= uploadTime a.2) l.
Proof.
  destruct (getUserFiles_listed userId now w) as (l & Hrun & Hlisted).
  exists l. split; [exact Hrun |]. split; [exact Hlisted |].
  rewrite getUserFiles_unfold in Hrun. injection Hrun as <-.
  split.
  - rewrite merge_sort_Permutation.
    eapply sublist_NoDup; [| apply fmap_sublist, sublist_filter ].
    rewrite <- list_fmap_compose.
    apply NoDup_fst_map_to_list.
  - apply (StronglySorted_merge_sort newest_first).
Qed.

(** C5 as the specification states it fails: a private record whose
    [expiresAt] is past is not listed. *)
Lemma getUserFiles_drops_private_expired :
  fileDocs Sample.store !! "notes" = Some Sample.notes
  /\ FileData.userId Sample.notes = "alice"
  /\ FileData.isPublic Sample.notes = false
  /\ FileData.expiresAt Sample.notes = Some 50
  /\ result (getUserFiles "alice" 60 Sample.store) = Returned [].
Proof. vm_compute. repeat split. Qed.

Example getUserFiles_sample :
  result (getUserFiles "alice" 40 Sample.store)
  = Returned [("notes", Sample.notes); ("report", Sample.report)].
Proof. vm_compute. reflexivity. Qed.

(** ** [deleteFile] and [cleanupExpiredFiles] *)

Lemma deleteFile_unfold (cloud : Cloudinary.t) (fileId userId : string) (now : Z) (w : World) :
  deleteFile cloud fileId userId now w =
  match fileDocs w !! fileId with
  | None => (Thrown FileNotFound, w)
  | Some d =>
      if bool_decide (FileData.userId d = userId)
      then
        let requests := blobRequests w ++ [Cloudinary.Destroy (FileData.publicId d)] in
        match Cloudinary.onDestroy cloud (FileData.publicId d), userDocs w !! userId with
        | Cloudinary.DestroyThrows, _ =>
            (Thrown FetchFailed, mkWorld (fileDocs w) (userDocs w) requests (settings w))
        | Cloudinary.DestroyAnswers _, None =>
            (Thrown NoDocumentToUpdate, mkWorld (fileDocs w) (userDocs w) requests (settings w))
        | Cloudinary.DestroyAnswers _, Some p =>
            let p1 :=
              UserProfile.with_updatedAt now
                (UserProfile.with_files (arrayRemove fileId (UserProfile.files p)) p) in
            let used := UserProfile.usedStorage p - FileData.size d in
            if used >? UserProfile.totalStorage p
            then (Thrown StorageQuotaExceeded,
                  mkWorld (fileDocs w) (<[userId := p1]> (userDocs w)) requests (settings w))
            else (Returned tt,
                  mkWorld (delete fileId (fileDocs w))
                    (<[userId := UserProfile.with_updatedAt now
                                   (UserProfile.with_usedStorage used p1)]>
                       (userDocs w))
                    requests (settings w))
        end
      else (Thrown Unauthorized, w)
  end.
Proof.
  unfold deleteFile. run.
  destruct (fileDocs w !! fileId) as [d|]; [| reflexivity].
  destruct (bool_decide (FileData.userId d = userId)); run; [| reflexivity].
  unfold fetch_destroy. run.
  destruct (Cloudinary.onDestroy cloud (FileData.publicId d)) as [| ok]; [reflexivity |].
  unfold updateDoc_user at 1. run. cbn [userDocs].
  destruct (userDocs w !! userId) as [p|] eqn:Hp; [| reflexivity].
  run. cbn [fileDocs userDocs blobRequests].
  erewrite updateUserStorage_unfold by (cbn [userDocs]; apply lookup_insert_eq).
  unfold newUsedStorage. cbn [UserProfile.usedStorage UserProfile.totalStorage
    UserProfile.with_updatedAt UserProfile.with_files].
  destruct (_ >? _); [reflexivity |].
  unfold deleteDoc_file. cbn [fileDocs userDocs blobRequests].
  rewrite insert_insert_eq. reflexivity.
Qed.

Lemma quota_released_refl (us : gmap string UserProfile.t) :
  quota_released (fun _ => 0) us us.
Proof. intros u p Hp. exists p. repeat split; [done | lia]. Qed.

Lemma quota_released_trans (d1 d2 d : string -> Z) (us us1 us2 : gmap string UserProfile.t) :
  (forall u, d u = d1 u + d2 u) ->
  quota_released d1 us us1 -> quota_released d2 us1 us2 -> quota_released d us us2.
Proof.
  intros Hd H1 H2 u p Hp.
  destruct (H1 u p Hp) as (p1 & Hp1 & Ht1 & Hu1).
  destruct (H2 u p1 Hp1) as (p2 & Hp2 & Ht2 & Hu2).
  exists p2. rewrite Hd. repeat split; [done | lia | lia].
Qed.

Lemma quota_released_touch (uid : string) (now : Z) (l : list string)
    (us : gmap string UserProfile.t) (p : UserProfile.t) :
  us !! uid = Some p ->
  quota_released (fun _ => 0) us
    (<[uid := UserProfile.with_updatedAt now (UserProfile.with_files l p)]> us).
Proof.
  intros Hp u q Hq. destruct (decide (uid = u)) as [<- | Hne].
  - rewrite lookup_insert_eq. eexists. split; [reflexivity |].
    rewrite Hp in Hq. injection Hq as <-. cbn. split; [done | lia].
  - rewrite lookup_insert_ne by done. exists q. repeat split; [done | lia].
Qed.

Lemma quota_released_charge (uid : string) (now bytes : Z) (l : list string)
    (us : gmap string UserProfile.t) (p : UserProfile.t) :
  us !! uid = Some p ->
  quota_released (fun u => if bool_decide (uid = u) then bytes else 0) us
    (<[uid := UserProfile.with_updatedAt now
                (UserProfile.with_usedStorage (UserProfile.usedStorage p - bytes)
                   (UserProfile.with_updatedAt now (UserProfile.with_files l p)))]> us).
Proof.
  intros Hp u q Hq. destruct (decide (uid = u)) as [<- | Hne].
  - rewrite lookup_insert_eq, bool_decide_eq_true_2 by done.
    eexists. split; [reflexivity |].
    rewrite Hp in Hq. injection Hq as <-. cbn. split; [done | lia].
  - rewrite lookup_insert_ne, bool_decide_eq_false_2 by done.
    exists q. repeat split; [done | lia].
Qed.

(** What one deletion of the sweep does: it never throws, and either the
    file documents and every [usedStorage] are as before, or the document
    is gone and its size is released from its owner's [usedStorage]. *)
Lemma autoDelete_effect (cloud : Cloudinary.t) (now : Z) (doc : string * FileData.t)
    (w : World) :
  exists w',
    autoDelete cloud now doc w = (Returned tt, w')
    /\ ((fileDocs w' = fileDocs w
         /\ quota_released (fun _ => 0) (userDocs w) (userDocs w'))
        \/ (exists d,
              fileDocs w !! doc.1 = Some d
              /\ fileDocs w' = delete doc.1 (fileDocs w)
              /\ quota_released
                   (fun u => if bool_decide (FileData.userId d = u)
                             then FileData.size d else 0)
                   (userDocs w) (userDocs w'))).
Proof.
  unfold autoDelete. run.
  destruct (truthy_string (FileData.userId doc.2)).
  2:{ exists w. split; [reflexivity |]. left. split; [done | apply quota_released_refl]. }
  rewrite deleteFile_unfold.
  destruct (fileDocs w !! doc.1) as [d|] eqn:Hd.
  2:{ exists w. split; [reflexivity |]. left. split; [done | apply quota_released_refl]. }
  destruct (bool_decide (FileData.userId d = FileData.userId doc.2)) eqn:Howner.
  2:{ exists w. split; [reflexivity |]. left. split; [done | apply quota_released_refl]. }
  apply bool_decide_eq_true_1 in Howner. cbn zeta.
  destruct (Cloudinary.onDestroy cloud (FileData.publicId d)) as [| ok].
  { eexists. split; [reflexivity |]. left. split; [done | apply quota_released_refl]. }
  destruct (userDocs w !! FileData.userId doc.2) as [p|] eqn:Hp.
  2:{ eexists. split; [reflexivity |]. left. split; [done | apply quota_released_refl]. }
  destruct (_ >? _).
  - eexists. split; [reflexivity |]. left. split; [done |].
    cbn [userDocs]. apply quota_released_touch. exact Hp.
  - eexists. split; [reflexivity |]. right. exists d.
    split; [done |]. split; [done |].
    cbn [userDocs]. rewrite Howner. apply quota_released_charge. exact Hp.
Qed.

Lemma releasedBytes_cons (uid : string) (doc : string * FileData.t)
    (removed : list (string * FileData.t)) :
  releasedBytes uid (doc :: removed)
  = (if bool_decide (FileData.userId doc.2 = uid) then FileData.size doc.2 else 0)
    + releasedBytes uid removed.
Proof. reflexivity. Qed.

(** The deletions of a sweep over the documents [l], which the store
    still holds: none throws; some sublist [removed] of [l] is deleted,
    nothing else, and each user's [usedStorage] drops by the sizes of the
    user's records in [removed]. *)
Lemma forEach_autoDelete_effect (cloud : Cloudinary.t) (now : Z)
    (l : list (string * FileData.t)) :
  forall w : World,
    NoDup l.*1 ->
    (forall id d, (id, d) ∈ l -> fileDocs w !! id = Some d) ->
    exists w' removed,
      forEach (autoDelete cloud now) l w = (Returned tt, w')
      /\ removed `sublist_of` l
      /\ (forall k, fileDocs w' !! k
                    = if bool_decide (k ∈ removed.*1) then None else fileDocs w !! k)
      /\ quota_released (fun u => releasedBytes u removed) (userDocs w) (userDocs w').
Proof.
  induction l as [| doc l IH]; intros w Hnodup Hheld.
  - exists w, []. split; [reflexivity |]. split; [constructor |].
    split; [intros k; reflexivity | apply quota_released_refl].
  - cbn [forEach]. rewrite run_bind.
    destruct (autoDelete_effect cloud now doc w) as (w1 & -> & Hstep).
    rewrite fmap_cons in Hnodup. apply NoDup_cons in Hnodup as [Hfresh Hnodup].
    assert (Hdoc : fileDocs w !! doc.1 = Some doc.2).
    { apply Hheld. destruct doc. left. }
    destruct Hstep as [[Hfiles Hquota] | (d & Hd & Hfiles & Hquota)].
    + destruct (IH w1 Hnodup) as (w' & removed & Hrun & Hsub & Hlook & Hrel).
      { intros id d Hin. rewrite Hfiles. apply Hheld. right. exact Hin. }
      exists w', removed. split; [exact Hrun |].
      split; [apply sublist_cons, Hsub |].
      split; [intros k; rewrite Hlook, Hfiles; reflexivity |].
      eapply quota_released_trans; [| exact Hquota | exact Hrel].
      intros u. cbn. lia.
    + rewrite Hdoc in Hd. injection Hd as <-.
      destruct (IH w1 Hnodup) as (w' & removed & Hrun & Hsub & Hlook & Hrel).
      { intros id d Hin. rewrite Hfiles, lookup_delete_ne.
        - apply Hheld. right. exact Hin.
        - intros <-. apply Hfresh. apply list_elem_of_fmap. exists (doc.1, d). done. }
      exists w', (doc :: removed). split; [exact Hrun |].
      split; [apply sublist_skip, Hsub |].
      split.
      * intros k. rewrite Hlook, Hfiles, fmap_cons.
        destruct (decide (k = doc.1)) as [-> | Hne].
        -- rewrite lookup_delete_eq.
           rewrite (bool_decide_eq_true_2 (doc.1 ∈ doc.1 :: removed.*1)) by left.
           destruct (bool_decide _); reflexivity.
        -- rewrite lookup_delete_ne by done.
           destruct (decide (k ∈ removed.*1)) as [Hin | Hout].
           ++ rewrite !bool_decide_eq_true_2; [done | by right | done].
           ++ rewrite !bool_decide_eq_false_2; [done | | done].
              intros [Heq | Hin]%elem_of_cons; done.
      * eapply quota_released_trans; [| exact Hquota | exact Hrel].
        intros u. rewrite releasedBytes_cons. reflexivity.
Qed.


(** One sweep: it returns the number of documents that its query matched;
    the documents it removed are some of those, and the [usedStorage] of
    each user drops by the sizes of the user's removed records. *)
Lemma cleanupExpiredFiles_effect (cloud : Cloudinary.t) (now : Z) (w : World) :
  let snapshot :=
    map_to_list (filter (fun kv => expiredFilesQuery now kv.2) (fileDocs w)) in
  exists w' removed,
    cleanupExpiredFiles cloud now w = (Returned (length snapshot), w')
    /\ removed `sublist_of` snapshot
    /\ (forall id d, (id, d) ∈ removed ->
          fileDocs w !! id = Some d /\ expiredFilesQuery now d)
    /\ (forall k, fileDocs w' !! k
                  = if bool_decide (k ∈ removed.*1) then None else fileDocs w !! k)
    /\ quota_released (fun u => releasedBytes u removed) (userDocs w) (userDocs w').
Proof.
  intros snapshot.
  assert (Hsnap : forall id d, (id, d) ∈ snapshot ->
                    fileDocs w !! id = Some d /\ expiredFilesQuery now d).
  { intros id d Hin. apply elem_of_map_to_list, map_lookup_filter_Some in Hin. exact Hin. }
  destruct (forEach_autoDelete_effect cloud now snapshot w)
    as (w' & removed & Hrun & Hsub & Hlook & Hrel).
  { apply NoDup_fst_map_to_list. }
  { intros id d Hin. apply (Hsnap id d Hin). }
  exists w', removed.
  split.
  - unfold cleanupExpiredFiles, getDocs_files. run. fold snapshot. rewrite Hrun. reflexivity.
  - split; [exact Hsub |]. split; [| split; [exact Hlook | exact Hrel]].
    intros id d Hin. apply Hsnap. eapply sublist_subseteq; [exact Hsub | exact Hin].
Qed.





(** On the sample: the sweep at time 100 removes the public record of 500
    bytes and leaves the private one; 100 bytes stay counted. *)
Example cleanupExpiredFiles_sample :
  let r := cleanupExpiredFiles Sample.online 100 Sample.store in
  result r = Returned 1%nat
  /\ fileDocs (world r) !! "report" = None
  /\ fileDocs (world r) !! "notes" = Some Sample.notes
  /\ (UserProfile.usedStorage <$> userDocs (world r) !! "alice") = Some 100
  /\ result (cleanupExpiredFiles Sample.online 100 (world r)) = Returned 0%nat.
Proof. vm_compute. repeat split. Qed.

Lemma autoDelete_unreachable (cloud : Cloudinary.t) (now : Z) (doc : string * FileData.t)
    (w : World) :
  (forall publicId, Cloudinary.onDestroy cloud publicId = Cloudinary.DestroyThrows) ->
  exists w',
    autoDelete cloud now doc w = (Returned tt, w')
    /\ fileDocs w' = fileDocs w
    /\ userDocs w' = userDocs w.
Proof.
  intros Hdown. unfold autoDelete. run.
  destruct (truthy_string (FileData.userId doc.2)); [| by exists w].
  rewrite deleteFile_unfold.
  destruct (fileDocs w !! doc.1) as [d|]; [| by exists w].
  destruct (bool_decide (FileData.userId d = FileData.userId doc.2)); [| by exists w].
  cbn zeta. rewrite Hdown. eexists. split; [reflexivity |]. split; reflexivity.
Qed.

Lemma forEach_autoDelete_unreachable (cloud : Cloudinary.t) (now : Z)
    (l : list (string * FileData.t)) :
  (forall publicId, Cloudinary.onDestroy cloud publicId = Cloudinary.DestroyThrows) ->
  forall w : World,
    exists w',
      forEach (autoDelete cloud now) l w = (Returned tt, w')
      /\ fileDocs w' = fileDocs w
      /\ userDocs w' = userDocs w.
Proof.
  intros Hdown. induction l as [| doc l IH]; intros w.
  - by exists w.
  - cbn [forEach]. rewrite run_bind.
    destruct (autoDelete_unreachable cloud now doc w Hdown) as (w1 & -> & Hfiles1 & Husers1).
    destruct (IH w1) as (w' & Hrun & Hfiles & Husers).
    exists w'. split; [exact Hrun |]. split; congruence.
Qed.

(** C3, where the code departs from it. While the blob store cannot be
    reached every deletion of the sweep fails and every record stays, and
    the sweep still returns the number of records that its query matched;
    the next sweep returns that number again. *)
Theorem cleanupExpiredFiles_counts_failed_deletions
    (cloud : Cloudinary.t) (now : Z) (w : World) :
  (forall publicId, Cloudinary.onDestroy cloud publicId = Cloudinary.DestroyThrows) ->
  let matched :=
    length (map_to_list (filter (fun kv => expiredFilesQuery now kv.2) (fileDocs w))) in
  let r := cleanupExpiredFiles cloud now w in
  result r = Returned matched
  /\ fileDocs (world r) = fileDocs w
  /\ userDocs (world r) = userDocs w
  /\ result (cleanupExpiredFiles cloud now (world r)) = Returned matched.
Proof.
  intros Hdown matched r.
  assert (Hsweep : forall v : World,
            exists v',
              cleanupExpiredFiles cloud now v
              = (Returned (length (map_to_list
                                     (filter (fun kv => expiredFilesQuery now kv.2)
                                             (fileDocs v)))), v')
              /\ fileDocs v' = fileDocs v /\ userDocs v' = userDocs v).
  { intros v. unfold cleanupExpiredFiles, getDocs_files. run.
    destruct (forEach_autoDelete_unreachable cloud now
                (map_to_list (filter (fun kv => expiredFilesQuery now kv.2) (fileDocs v)))
                Hdown v) as (v' & -> & Hfiles & Husers).
    exists v'. split; [reflexivity |]. split; assumption. }
  subst r. destruct (Hsweep w) as (w1 & -> & Hfiles & Husers).
  unfold result, world. cbn [fst snd].
  split; [reflexivity |]. split; [exact Hfiles |]. split; [exact Husers |].
  destruct (Hsweep w1) as (w2 & -> & _ & _). cbn [fst]. unfold matched.
  rewrite Hfiles. reflexivity.
Qed.

Lemma cleanupExpiredFiles_counts_failed_deletions_witness :
  let r := cleanupExpiredFiles Sample.offline 100 Sample.store in
  result r = Returned 1%nat
  /\ fileDocs (world r) !! "report" = Some Sample.report
  /\ result (cleanupExpiredFiles Sample.offline 100 (world r)) = Returned 1%nat.
Proof.
  destruct (cleanupExpiredFiles_counts_failed_deletions Sample.offline 100 Sample.store)
    as (Hcount & Hfiles & _ & Hagain); [reflexivity |].
  cbv zeta. split; [| split].
  - rewrite Hcount. vm_compute. reflexivity.
  - rewrite Hfiles. vm_compute. reflexivity.
  - rewrite Hagain. vm_compute. reflexivity.
Defined.

(** ** [uploadFile] within the quota *)

Lemma uploadFile_unfold
    (cloud : Cloudinary.t) (newId : string) (file : File.t) (userId : string)
    (options : option Options.t) (now : Z) (w : World) (p : UserProfile.t) :
  userDocs w !! userId = Some p ->
  UserProfile.usedStorage p + File.size file <= UserProfile.totalStorage p ->
  uploadFile cloud newId file userId options now w =
  let requests :=
    blobRequests w
    ++ [Cloudinary.Upload ("ofss/" +:+ userId) (File.name file) (File.size file)] in
  match Cloudinary.onUpload cloud with
  | Cloudinary.UploadThrows =>
      (Thrown FetchFailed, mkWorld (fileDocs w) (userDocs w) requests (settings w))
  | Cloudinary.UploadAnswers response =>
      if names_blob response
      then
        let fd := uploadedFileData (zoneOf w) file userId options now response in
        if acceptable (settings w) fd
        then (Returned (newId, fd),
              mkWorld
                (<[newId := fd]> (fileDocs w))
                (<[userId := UserProfile.with_updatedAt now
                               (UserProfile.with_usedStorage
                                  (UserProfile.usedStorage p + File.size file) p)]>
                   (userDocs w))
                requests (settings w))
        else (Thrown InvalidData, mkWorld (fileDocs w) (userDocs w) requests (settings w))
      else (Thrown FailedToUpload, mkWorld (fileDocs w) (userDocs w) requests (settings w))
  end.
Proof.
  intros Hp Hquota. unfold uploadFile. run. rewrite Hp.
  pose proof Hquota as Hfits. apply gtb_false_iff in Hfits. rewrite Hfits.
  unfold uploadToCloudinary, fetch_upload. run. cbn zeta.
  destruct (Cloudinary.onUpload cloud) as [| response]; [reflexivity |].
  unfold names_blob.
  destruct (truthy_field (Cloudinary.public_id response));
    destruct (truthy_field (Cloudinary.secure_url response));
    cbn [negb andb orb]; try reflexivity.
  all: run; unfold addDoc_file; cbn [settings].
  all: match goal with
       | |- context [acceptable _ ?f] =>
           change f with (uploadedFileData (zoneOf w) file userId options now response)
       end.
  all: destruct (acceptable _ _); [| reflexivity].
  all: run; erewrite updateUserStorage_unfold by (cbn [userDocs]; exact Hp);
    unfold newUsedStorage; rewrite Hfits; reflexivity.
Qed.

Lemma uploadedFileData_fields (zone : TimeZone.t) (file : File.t) (userId : string)
    (options : option Options.t) (now : Z) (response : Cloudinary.data) :
  let fd := uploadedFileData zone file userId options now response in
  FileData.userId fd = userId
  /\ FileData.size fd = File.size file
  /\ FileData.isPublic fd = false
  /\ FileData.sharedWith fd = []
  /\ FileData.uploadedAt fd = Some now
  /\ FileData.publicId fd = Cloudinary.public_id response.
Proof.
  unfold uploadedFileData.
  destruct (opt_password options) as [pw|]; [destruct (truthy_string pw) |];
    (destruct (opt_expiresIn options) as [| | hours];
     [| | destruct (truthy_number hours)]); cbn; done.
Qed.

Lemma uploadedFileData_protection (zone : TimeZone.t) (file : File.t) (userId : string)
    (options : option Options.t) (now : Z) (response : Cloudinary.data) :
  let fd := uploadedFileData zone file userId options now response in
  match opt_password options with
  | Some pw =>
      if truthy_string pw
      then FileData.protected fd = true /\ FileData.password fd = Some (hashPassword pw)
      else FileData.protected fd = false
  | None => FileData.protected fd = false
  end.
Proof.
  unfold uploadedFileData.
  destruct (opt_password options) as [pw|]; [destruct (truthy_string pw) |];
    (destruct (opt_expiresIn options) as [| | hours];
     [| | destruct (truthy_number hours)]); cbn; done.
Qed.



Section UploadAccepted.

Variables (cloud : Cloudinary.t) (newId : string) (file : File.t) (userId : string).
Variables (options : option Options.t) (now : Z) (w : World).
Variables (p : UserProfile.t) (response : Cloudinary.data).

Hypothesis profile_found : userDocs w !! userId = Some p.
Hypothesis within_quota :
  UserProfile.usedStorage p + File.size file <= UserProfile.totalStorage p.
Hypothesis blob_stored : Cloudinary.onUpload cloud = Cloudinary.UploadAnswers response.
Hypothesis blob_named : names_blob response = true.

Let uploaded : Outcome (string * FileData.t) * World :=
  uploadFile cloud newId file userId options now w.
Let fd : FileData.t := uploadedFileData (zoneOf w) file userId options now response.

Hypothesis record_accepted : acceptable (settings w) fd = true.

Lemma uploadFile_accepted :
  uploaded
  = (Returned (newId, fd),
     mkWorld (<[newId := fd]> (fileDocs w))
       (<[userId := UserProfile.with_updatedAt now
                      (UserProfile.with_usedStorage
                         (UserProfile.usedStorage p + File.size file) p)]>
          (userDocs w))
       (blobRequests w
        ++ [Cloudinary.Upload ("ofss/" +:+ userId) (File.name file) (File.size file)])
       (settings w)).
Proof.
  unfold uploaded. rewrite (uploadFile_unfold _ _ _ _ _ _ _ _ profile_found within_quota).
  cbn zeta. rewrite blob_stored, blob_named. fold fd. rewrite record_accepted.
  reflexivity.
Qed.

(** X1. An upload within the quota that the blob store accepts, and
    whose record the document store accepts, returns the new record and
    stores it under the new id: it belongs to the uploader, has the size
    of the file, is private and shared with nobody; no other record
    changes; the uploader's [usedStorage] grows by the size of the file
    and stays within [totalStorage]; no other profile changes. *)
Theorem uploadFile_stores_record_and_charges :
  result uploaded = Returned (newId, fd)
  /\ fileDocs (world uploaded) !! newId = Some fd
  /\ (forall k, k <> newId -> fileDocs (world uploaded) !! k = fileDocs w !! k)
  /\ FileData.userId fd = userId
  /\ FileData.size fd = File.size file
  /\ FileData.isPublic fd = false
  /\ FileData.sharedWith fd = []
  /\ (exists p',
        userDocs (world uploaded) !! userId = Some p'
        /\ UserProfile.usedStorage p' = UserProfile.usedStorage p + File.size file
        /\ UserProfile.totalStorage p' = UserProfile.totalStorage p
        /\ UserProfile.usedStorage p' <= UserProfile.totalStorage p')
  /\ (forall u, u <> userId -> userDocs (world uploaded) !! u = userDocs w !! u).
Proof.
  rewrite uploadFile_accepted. unfold result, world. cbn [fst snd fileDocs userDocs].
  destruct (uploadedFileData_fields (zoneOf w) file userId options now response)
    as (Howner & Hsize & Hprivate & Hshared & _).
  split; [reflexivity |]. split; [apply lookup_insert_eq |].
  split; [intros k Hk; apply lookup_insert_ne; congruence |].
  split; [exact Howner |]. split; [exact Hsize |]. split; [exact Hprivate |].
  split; [exact Hshared |]. split.
  - eexists. split; [apply lookup_insert_eq |]. cbn. repeat split; lia.
  - intros u Hu. apply lookup_insert_ne. congruence.
Qed.

(** X3. After such an upload with a non-empty password, the record is
    verified by that password and by no password with another digest;
    after an upload without password, or with an empty one, every
    password is accepted. *)
Theorem uploadFile_password_verifies :
  (forall pw, opt_password options = Some pw -> pw <> "" ->
     verifyFilePassword newId pw (world uploaded) = (Returned true, world uploaded)
     /\ forall other, hashPassword other <> hashPassword pw ->
          verifyFilePassword newId other (world uploaded)
          = (Returned false, world uploaded))
  /\ (opt_password options = None \/ opt_password options = Some "" ->
      forall any, verifyFilePassword newId any (world uploaded)
                  = (Returned true, world uploaded)).
Proof.
  assert (Hstored : fileDocs (world uploaded) !! newId = Some fd).
  { rewrite uploadFile_accepted. unfold world. cbn [snd fileDocs]. apply lookup_insert_eq. }
  pose proof (uploadedFileData_protection (zoneOf w) file userId options now response)
    as Hprot.
  cbn zeta in Hprot. fold fd in Hprot.
  split.
  - intros pw Hpw Hnonempty. rewrite Hpw, (truthy_string_true _ Hnonempty) in Hprot.
    destruct Hprot as [Hflag Hhash]. split.
    + rewrite (verifyFilePassword_found _ _ _ _ Hstored), Hflag, Hhash.
      rewrite bool_decide_eq_true_2; reflexivity.
    + intros other Hother.
      rewrite (verifyFilePassword_found _ _ _ _ Hstored), Hflag, Hhash.
      rewrite bool_decide_eq_false_2; [reflexivity | congruence].
  - intros Hnone any. rewrite (verifyFilePassword_found _ _ _ _ Hstored).
    destruct Hnone as [Hnone | Hempty].
    + rewrite Hnone in Hprot. rewrite Hprot. reflexivity.
    + rewrite Hempty in Hprot. cbn in Hprot. rewrite Hprot. reflexivity.
Qed.


End UploadAccepted.

Lemma uploadFile_stores_record_and_charges_witness :
  result (uploadFile Sample.online "new" Scenario.photo "alice" Scenario.guarded 7
            Sample.store)
  = Returned ("new", uploadedFileData (TimeZone.fixed 0) Scenario.photo "alice"
                      Scenario.guarded 7 Sample.answer)
  /\ exists p',
       userDocs (world (uploadFile Sample.online "new" Scenario.photo "alice"
                          Scenario.guarded 7 Sample.store)) !! "alice" = Some p'
       /\ UserProfile.usedStorage p' = 900.
Proof.
  destruct (uploadFile_stores_record_and_charges Sample.online "new" Scenario.photo "alice"
              Scenario.guarded 7 Sample.store Sample.alice Sample.answer)
    as (Hresult & _ & _ & _ & _ & _ & _ & (p' & Hp' & Hused & _) & _).
  - vm_compute. reflexivity.
  - vm_compute. discriminate.
  - reflexivity.
  - reflexivity.
  - vm_compute. reflexivity.
  - split; [exact Hresult |]. exists p'. split; [exact Hp' | exact Hused].
Defined.

Lemma uploadFile_password_verifies_witness :
  let w' := world (uploadFile Sample.online "new" Scenario.photo "alice" Scenario.guarded 7
                     Sample.store) in
  verifyFilePassword "new" "pw" w' = (Returned true, w')
  /\ verifyFilePassword "new" "pW" w' = (Returned false, w').
Proof.
  destruct (uploadFile_password_verifies Sample.online "new" Scenario.photo "alice"
              Scenario.guarded 7 Sample.store Sample.alice Sample.answer)
    as [Hset _].
  - vm_compute. reflexivity.
  - vm_compute. discriminate.
  - reflexivity.
  - reflexivity.
  - vm_compute. reflexivity.
  - destruct (Hset "pw" eq_refl) as [Hsame Hother]; [discriminate |].
    split; [exact Hsame |]. apply Hother. vm_compute. discriminate.
Defined.


(** X2. When the blob store fails an upload that is within the quota, by
    a [fetch] that throws or by an answer that names no blob, [uploadFile]
    throws after the request, and no document of the store has changed:
    no record exists for the file and nothing is charged. *)
Theorem uploadFile_blob_failure_changes_no_document
    (cloud : Cloudinary.t) (newId : string) (file : File.t) (userId : string)
    (options : option Options.t) (now : Z) (w : World) (p : UserProfile.t) :
  userDocs w !! userId = Some p ->
  UserProfile.usedStorage p + File.size file <= UserProfile.totalStorage p ->
  (Cloudinary.onUpload cloud = Cloudinary.UploadThrows
   \/ exists response,
        Cloudinary.onUpload cloud = Cloudinary.UploadAnswers response
        /\ names_blob response = false) ->
  let r := uploadFile cloud newId file userId options now w in
  (exists e, result r = Thrown e)
  /\ fileDocs (world r) = fileDocs w
  /\ userDocs (world r) = userDocs w
  /\ blobRequests (world r)
     = blobRequests w
       ++ [Cloudinary.Upload ("ofss/" +:+ userId) (File.name file) (File.size file)].
Proof.
  intros Hp Hquota Hfail r. subst r.
  rewrite (uploadFile_unfold _ _ _ _ _ _ _ _ Hp Hquota). cbn zeta.
  destruct Hfail as [-> | (response & -> & ->)].
  - split; [by eexists |]. done.
  - split; [by eexists |]. done.
Qed.

Lemma uploadFile_blob_failure_changes_no_document_witness :
  fileDocs (world (uploadFile Sample.offline "new" Scenario.photo "alice" None 7
                     Sample.store))
  = fileDocs Sample.store
  /\ userDocs (world (uploadFile Sample.offline "new" Scenario.photo "alice" None 7
                        Sample.store))
     = userDocs Sample.store.
Proof.
  destruct (uploadFile_blob_failure_changes_no_document Sample.offline "new" Scenario.photo
              "alice" None 7 Sample.store Sample.alice)
    as (_ & Hfiles & Husers & _).
  - vm_compute. reflexivity.
  - vm_compute. discriminate.
  - left. reflexivity.
  - split; [exact Hfiles | exact Husers].
Defined.

(** When the document store refuses the record, [uploadFile] throws after
    the blob was stored: no record exists for it and nothing is
    charged. *)
Lemma uploadFile_record_refused
    (cloud : Cloudinary.t) (newId : string) (file : File.t) (userId : string)
    (options : option Options.t) (now : Z) (w : World) (p : UserProfile.t)
    (response : Cloudinary.data) :
  userDocs w !! userId = Some p ->
  UserProfile.usedStorage p + File.size file <= UserProfile.totalStorage p ->
  Cloudinary.onUpload cloud = Cloudinary.UploadAnswers response ->
  names_blob response = true ->
  acceptable (settings w) (uploadedFileData (zoneOf w) file userId options now response)
  = false ->
  let r := uploadFile cloud newId file userId options now w in
  result r = Thrown InvalidData
  /\ fileDocs (world r) = fileDocs w
  /\ userDocs (world r) = userDocs w
  /\ blobRequests (world r)
     = blobRequests w
       ++ [Cloudinary.Upload ("ofss/" +:+ userId) (File.name file) (File.size file)].
Proof.
  intros Hp Hquota Hstored Hnamed Hrefused r. subst r.
  rewrite (uploadFile_unfold _ _ _ _ _ _ _ _ Hp Hquota). cbn zeta.
  rewrite Hstored, Hnamed, Hrefused. done.
Qed.

(** The answer to the upload of a file that is no image has no width and
    no height: the record is refused, unless the client ignores undefined
    properties. So is a record whose expiration lies beyond the dates of
    a [Timestamp]. *)
Example uploadFile_of_a_plain_file :
  uploadFile Scenario.plain "new" Scenario.photo "alice" None 7 Sample.store
  = (Thrown InvalidData,
     mkWorld (fileDocs Sample.store) (userDocs Sample.store)
             [Cloudinary.Upload "ofss/alice" "photo.png" 300] Sample.greenwich)
  /\ is_Some (fileDocs (world (uploadFile Scenario.plain "new" Scenario.photo "alice" None 7
                                 Scenario.lenient)) !! "new")
  /\ result (uploadFile Sample.online "new" Scenario.photo "alice"
               (Some (Options.mk (Num 80000000) None)) 7 Sample.store)
     = Thrown InvalidData.
Proof. vm_compute. split; [reflexivity |]. split; [by eexists | reflexivity]. Qed.

(** ** [deleteFile] *)

Lemma arrayRemove_removes (x : string) (l : list string) : x ∉ arrayRemove x l.
Proof.
  unfold arrayRemove. rewrite list_elem_of_In, filter_In.
  intros [_ Hkeep]. rewrite bool_decide_eq_true_2 in Hkeep by reflexivity. discriminate.
Qed.

Lemma arrayRemove_keeps (x y : string) (l : list string) :
  y <> x -> (y ∈ arrayRemove x l <-> y ∈ l).
Proof.
  intros Hne. unfold arrayRemove. rewrite !list_elem_of_In, filter_In.
  rewrite bool_decide_eq_false_2 by exact Hne. cbn. tauto.
Qed.

(** X5. [deleteFile] refuses a file id without record and a caller who is
    not the owner, before any request to the blob store: the world is
    unchanged. *)
Theorem deleteFile_refuses_missing_and_strangers
    (cloud : Cloudinary.t) (fileId userId : string) (now : Z) (w : World) :
  (fileDocs w !! fileId = None ->
   deleteFile cloud fileId userId now w = (Thrown FileNotFound, w))
  /\ (forall f, fileDocs w !! fileId = Some f -> FileData.userId f <> userId ->
        deleteFile cloud fileId userId now w = (Thrown Unauthorized, w)).
Proof.
  rewrite deleteFile_unfold. split.
  - intros ->. reflexivity.
  - intros f -> Hstranger. rewrite bool_decide_eq_false_2 by exact Hstranger. reflexivity.
Qed.

Lemma deleteFile_refuses_missing_and_strangers_witness :
  deleteFile Sample.online "nowhere" "alice" 9 Sample.store
  = (Thrown FileNotFound, Sample.store)
  /\ deleteFile Sample.online "report" "bob" 9 Sample.store
     = (Thrown Unauthorized, Sample.store).
Proof.
  destruct (deleteFile_refuses_missing_and_strangers Sample.online "nowhere" "alice" 9
              Sample.store) as [Hmissing _].
  destruct (deleteFile_refuses_missing_and_strangers Sample.online "report" "bob" 9
              Sample.store) as [_ Hstranger].
  split.
  - apply Hmissing. vm_compute. reflexivity.
  - apply (Hstranger Sample.report); [vm_compute; reflexivity | discriminate].
Defined.

(** X6. When the owner deletes a file, the blob store answers (whether it
    destroyed the blob or refused), the owner has a profile and the new
    usage does not exceed the quota, [deleteFile] removes the record and
    no other, lowers the owner's [usedStorage] by the size of the file,
    drops the id from the owner's [files], and leaves the other profiles
    alone; the blob store got one request, for the file's blob. *)
Theorem deleteFile_removes_and_releases
    (cloud : Cloudinary.t) (fileId : string) (now : Z) (w : World)
    (f : FileData.t) (p : UserProfile.t) (ok : bool) :
  fileDocs w !! fileId = Some f ->
  userDocs w !! FileData.userId f = Some p ->
  Cloudinary.onDestroy cloud (FileData.publicId f) = Cloudinary.DestroyAnswers ok ->
  UserProfile.usedStorage p - FileData.size f <= UserProfile.totalStorage p ->
  let r := deleteFile cloud fileId (FileData.userId f) now w in
  result r = Returned tt
  /\ fileDocs (world r) = delete fileId (fileDocs w)
  /\ (exists p',
        userDocs (world r) !! FileData.userId f = Some p'
        /\ UserProfile.usedStorage p' = UserProfile.usedStorage p - FileData.size f
        /\ UserProfile.totalStorage p' = UserProfile.totalStorage p
        /\ (fileId ∉ UserProfile.files p')
        /\ forall other, other <> fileId ->
             (other ∈ UserProfile.files p' <-> other ∈ UserProfile.files p))
  /\ (forall u, u <> FileData.userId f -> userDocs (world r) !! u = userDocs w !! u)
  /\ blobRequests (world r)
     = blobRequests w ++ [Cloudinary.Destroy (FileData.publicId f)].
Proof.
  intros Hf Hp Hanswer Hfits r. subst r.
  rewrite deleteFile_unfold, Hf, bool_decide_eq_true_2 by reflexivity.
  cbn zeta. rewrite Hanswer, Hp. apply gtb_false_iff in Hfits. rewrite Hfits.
  unfold result, world. cbn [fst snd fileDocs userDocs blobRequests].
  split; [reflexivity |]. split; [reflexivity |]. split; [| split; [| reflexivity]].
  - eexists. split; [apply lookup_insert_eq |]. cbn.
    split; [reflexivity |]. split; [reflexivity |].
    split; [apply arrayRemove_removes |].
    intros other Hother. apply arrayRemove_keeps. exact Hother.
  - intros u Hu. apply lookup_insert_ne. congruence.
Qed.

Lemma deleteFile_removes_and_releases_witness :
  let r := deleteFile Scenario.refusing "report" "alice" 9 Sample.store in
  result r = Returned tt
  /\ fileDocs (world r) !! "report" = None
  /\ (UserProfile.usedStorage <$> userDocs (world r) !! "alice") = Some 100.
Proof.
  destruct (deleteFile_removes_and_releases Scenario.refusing "report" 9 Sample.store
              Sample.report Sample.alice false)
    as (Hresult & Hfiles & (p' & Hp' & Hused & _) & _).
  - vm_compute. reflexivity.
  - vm_compute. reflexivity.
  - reflexivity.
  - vm_compute. discriminate.
  - cbv zeta. cbn [FileData.userId Sample.report] in *.
    split; [exact Hresult |]. split.
    + rewrite Hfiles. apply lookup_delete_eq.
    + rewrite Hp'. cbn. rewrite Hused. reflexivity.
Defined.

(** X7. When the owner deletes a file and the request to the blob store
    throws, or the blob store answers and the owner has no profile,
    [deleteFile] throws after that request and no document has changed:
    the record is still there and no quota is released. *)
Theorem deleteFile_stopped_changes_no_document
    (cloud : Cloudinary.t) (fileId : string) (now : Z) (w : World) (f : FileData.t) :
  fileDocs w !! fileId = Some f ->
  (Cloudinary.onDestroy cloud (FileData.publicId f) = Cloudinary.DestroyThrows
   \/ userDocs w !! FileData.userId f = None) ->
  let r := deleteFile cloud fileId (FileData.userId f) now w in
  (exists e, result r = Thrown e)
  /\ fileDocs (world r) = fileDocs w
  /\ userDocs (world r) = userDocs w
  /\ blobRequests (world r)
     = blobRequests w ++ [Cloudinary.Destroy (FileData.publicId f)].
Proof.
  intros Hf Hstop r. subst r.
  rewrite deleteFile_unfold, Hf, bool_decide_eq_true_2 by reflexivity. cbn zeta.
  destruct Hstop as [-> | ->].
  - split; [by eexists |]. done.
  - destruct (Cloudinary.onDestroy cloud (FileData.publicId f)) as [| ok];
      (split; [by eexists |]; done).
Qed.

Lemma deleteFile_stopped_changes_no_document_witness :
  let r := deleteFile Sample.offline "report" "alice" 9 Sample.store in
  result r = Thrown FetchFailed
  /\ fileDocs (world r) = fileDocs Sample.store
  /\ userDocs (world r) = userDocs Sample.store.
Proof.
  destruct (deleteFile_stopped_changes_no_document Sample.offline "report" 9 Sample.store
              Sample.report)
    as (_ & Hfiles & Husers & _).
  - vm_compute. reflexivity.
  - left. reflexivity.
  - cbv zeta. cbn [FileData.userId Sample.report] in *.
    split; [vm_compute; reflexivity |]. split; [exact Hfiles | exact Husers].
Defined.

(** X8. Upload, then delete: when a file of non-negative size is uploaded
    under a new id, the document store accepting its record, and its
    owner then deletes it, the blob store answering both times, the file
    records are those before the upload and the owner's [usedStorage] is
    what it was. *)
Theorem uploadFile_then_deleteFile_restores
    (cloud cloud' : Cloudinary.t) (newId : string) (file : File.t) (userId : string)
    (options : option Options.t) (now later : Z) (w : World)
    (p : UserProfile.t) (response : Cloudinary.data) (ok : bool) :
  userDocs w !! userId = Some p ->
  0 <= File.size file ->
  UserProfile.usedStorage p + File.size file <= UserProfile.totalStorage p ->
  fileDocs w !! newId = None ->
  Cloudinary.onUpload cloud = Cloudinary.UploadAnswers response ->
  names_blob response = true ->
  acceptable (settings w) (uploadedFileData (zoneOf w) file userId options now response)
  = true ->
  Cloudinary.onDestroy cloud' (Cloudinary.public_id response)
  = Cloudinary.DestroyAnswers ok ->
  let r := deleteFile cloud' newId userId later
             (world (uploadFile cloud newId file userId options now w)) in
  result r = Returned tt
  /\ fileDocs (world r) = fileDocs w
  /\ exists p',
       userDocs (world r) !! userId = Some p'
       /\ UserProfile.usedStorage p' = UserProfile.usedStorage p
       /\ UserProfile.totalStorage p' = UserProfile.totalStorage p.
Proof.
  intros Hp Hsize Hquota Hfresh Hstored Hnamed Haccepted Hanswer r. subst r.
  rewrite (uploadFile_accepted _ _ _ _ _ _ _ _ _ Hp Hquota Hstored Hnamed Haccepted).
  destruct (uploadedFileData_fields (zoneOf w) file userId options now response)
    as (Howner & Hbytes & _ & _ & _ & Hblob).
  rewrite world_pair, deleteFile_unfold. cbn [fileDocs userDocs blobRequests].
  rewrite lookup_insert_eq, Howner, bool_decide_eq_true_2 by reflexivity.
  cbn zeta. rewrite Hblob, Hanswer, lookup_insert_eq, Hbytes.
  cbn [UserProfile.usedStorage UserProfile.totalStorage UserProfile.with_updatedAt
       UserProfile.with_usedStorage].
  assert (Hfits : (UserProfile.usedStorage p + File.size file - File.size file
                   >? UserProfile.totalStorage p) = false)
    by (apply gtb_false_iff; lia).
  rewrite Hfits. unfold result, world. cbn [fst snd fileDocs userDocs].
  split; [reflexivity |]. split; [apply delete_insert_id, Hfresh |].
  eexists. split; [apply lookup_insert_eq |]. cbn. split; [lia | reflexivity].
Qed.

Lemma uploadFile_then_deleteFile_restores_witness :
  let r := deleteFile Scenario.refusing "new" "alice" 9
             (world (uploadFile Sample.online "new" Scenario.photo "alice"
                       Scenario.guarded 7 Sample.store)) in
  fileDocs (world r) = fileDocs Sample.store
  /\ exists p', userDocs (world r) !! "alice" = Some p'
                /\ UserProfile.usedStorage p' = 600.
Proof.
  destruct (uploadFile_then_deleteFile_restores Sample.online Scenario.refusing "new"
              Scenario.photo "alice" Scenario.guarded 7 9 Sample.store Sample.alice
              Sample.answer false)
    as (_ & Hfiles & p' & Hp' & Hused & _).
  - vm_compute. reflexivity.
  - vm_compute. discriminate.
  - vm_compute. discriminate.
  - vm_compute. reflexivity.
  - reflexivity.
  - reflexivity.
  - vm_compute. reflexivity.
  - reflexivity.
  - split; [exact Hfiles |]. exists p'. split; [exact Hp' | exact Hused].
Defined.

(** ** [shareFile] and [getSharedFiles] *)

Lemma shareFile_by_owner (fileId email : string) (w : World) (f : FileData.t) :
  fileDocs w !! fileId = Some f ->
  shareFile fileId (FileData.userId f) email w
  = (Returned tt,
     mkWorld
       (<[fileId := set_sharedWith (arrayUnion email (FileData.sharedWith f)) f]>
          (fileDocs w))
       (userDocs w) (blobRequests w) (settings w)).
Proof.
  intros Hf. unfold shareFile. run. rewrite Hf.
  rewrite bool_decide_eq_true_2 by reflexivity. run.
  unfold updateDoc_file. rewrite Hf. reflexivity.
Qed.

Lemma elem_of_arrayUnion (x y : string) (l : list string) :
  y ∈ arrayUnion x l <-> y = x \/ y ∈ l.
Proof.
  unfold arrayUnion. destruct (bool_decide (x ∈ l)) eqn:Hin.
  - apply bool_decide_eq_true_1 in Hin. split; [tauto |]. intros [-> | Hy]; assumption.
  - rewrite elem_of_app, list_elem_of_singleton. tauto.
Qed.

Lemma arrayUnion_present (x : string) (l : list string) : x ∈ l -> arrayUnion x l = l.
Proof. intros Hin. unfold arrayUnion. rewrite bool_decide_eq_true_2; done. Qed.

Lemma set_sharedWith_same (f : FileData.t) : set_sharedWith (FileData.sharedWith f) f = f.
Proof. destruct f. reflexivity. Qed.

(** X9. When the owner shares a file with an address, the address is
    among the readers afterwards, the readers of before are kept, nobody
    else is added, and nothing else of the record changes; sharing with
    an address that is already a reader changes nothing, so that a second
    identical call leaves the world of the first. *)
Theorem shareFile_adds_reader_once (fileId email : string) (w : World) (f : FileData.t) :
  fileDocs w !! fileId = Some f ->
  let r := shareFile fileId (FileData.userId f) email w in
  result r = Returned tt
  /\ (exists readers,
        fileDocs (world r) !! fileId = Some (set_sharedWith readers f)
        /\ forall a, a ∈ readers <-> a = email \/ a ∈ FileData.sharedWith f)
  /\ (forall k, k <> fileId -> fileDocs (world r) !! k = fileDocs w !! k)
  /\ (email ∈ FileData.sharedWith f -> world r = w)
  /\ shareFile fileId (FileData.userId f) email (world r) = (Returned tt, world r).
Proof.
  intros Hf r. subst r. rewrite (shareFile_by_owner _ _ _ _ Hf).
  unfold result, world. cbn [fst snd fileDocs].
  split; [reflexivity |]. split; [| split; [| split]].
  - eexists. split; [apply lookup_insert_eq |]. intros a. apply elem_of_arrayUnion.
  - intros k Hk. apply lookup_insert_ne. congruence.
  - intros Hin. rewrite (arrayUnion_present _ _ Hin), set_sharedWith_same.
    rewrite (insert_id _ _ _ Hf). destruct w. reflexivity.
  - set (f' := set_sharedWith (arrayUnion email (FileData.sharedWith f)) f).
    assert (Howner : FileData.userId f = FileData.userId f') by reflexivity.
    rewrite Howner. erewrite shareFile_by_owner by (cbn [fileDocs]; apply lookup_insert_eq).
    cbn [fileDocs userDocs blobRequests]. rewrite insert_insert_eq.
    assert (Hsame : set_sharedWith (arrayUnion email (FileData.sharedWith f')) f' = f').
    { unfold f' at 1. cbn [FileData.sharedWith set_sharedWith].
      rewrite arrayUnion_present by (apply elem_of_arrayUnion; left; reflexivity).
      reflexivity. }
    rewrite Hsame. reflexivity.
Qed.

Lemma shareFile_adds_reader_once_witness :
  exists readers,
    fileDocs (world (shareFile "notes" "alice" "bob@example.org" Sample.store)) !! "notes"
    = Some (set_sharedWith readers Sample.notes)
    /\ "bob@example.org" ∈ readers.
Proof.
  destruct (shareFile_adds_reader_once "notes" "bob@example.org" Sample.store Sample.notes)
    as (_ & (readers & Hstored & Hreaders) & _).
  - vm_compute. reflexivity.
  - exists readers. split; [exact Hstored |]. apply Hreaders. left. reflexivity.
Defined.

(** X10. [shareFile] and [generateShareableLink] refuse a file id without
    record and a caller who is not the owner, and then leave the world
    unchanged. *)
Theorem sharing_refuses_missing_and_strangers
    (origin fileId userId email : string) (options : option Options.t) (now : Z)
    (w : World) :
  (fileDocs w !! fileId = None ->
   shareFile fileId userId email w = (Thrown FileNotFound, w)
   /\ generateShareableLink origin fileId userId options now w = (Thrown FileNotFound, w))
  /\ (forall f, fileDocs w !! fileId = Some f -> FileData.userId f <> userId ->
        shareFile fileId userId email w = (Thrown NoPermissionToShare, w)
        /\ generateShareableLink origin fileId userId options now w
           = (Thrown NoPermissionToShare, w)).
Proof.
  unfold shareFile, generateShareableLink. run. split.
  - intros ->. split; reflexivity.
  - intros f -> Hstranger. rewrite bool_decide_eq_false_2 by exact Hstranger.
    split; reflexivity.
Qed.

Lemma sharing_refuses_missing_and_strangers_witness :
  shareFile "report" "bob" "eve@example.org" Sample.store
  = (Thrown NoPermissionToShare, Sample.store)
  /\ generateShareableLink Sample.origin "nowhere" "alice" None 7 Sample.store
     = (Thrown FileNotFound, Sample.store).
Proof.
  destruct (sharing_refuses_missing_and_strangers Sample.origin "report" "bob"
              "eve@example.org" None 7 Sample.store) as [_ Hstranger].
  destruct (sharing_refuses_missing_and_strangers Sample.origin "nowhere" "alice"
              "eve@example.org" None 7 Sample.store) as [Hmissing _].
  split.
  - apply (Hstranger Sample.report); [vm_compute; reflexivity | discriminate].
  - apply Hmissing. vm_compute. reflexivity.
Defined.

Lemma getSharedFiles_unfold (email : string) (w : World) :
  getSharedFiles email w
  = (Returned (map_to_list
                 (filter (fun kv => bool_decide (email ∈ FileData.sharedWith kv.2))
                         (fileDocs w))), w).
Proof. reflexivity. Qed.

(** X11. [getSharedFiles] returns, each once, the records whose
    [sharedWith] holds the address, as they are stored, whoever owns them
    and whether or not they are public or expired; it changes nothing. *)
Theorem getSharedFiles_lists_shared_records (email : string) (w : World) :
  exists l,
    getSharedFiles email w = (Returned l, w)
    /\ (forall id d, (id, d) ∈ l <->
          fileDocs w !! id = Some d /\ email ∈ FileData.sharedWith d)
    /\ NoDup l.*1.
Proof.
  eexists. split; [apply getSharedFiles_unfold |]. split.
  - intros id d. rewrite elem_of_map_to_list, map_lookup_filter_Some. cbn [snd].
    rewrite bool_decide_spec. reflexivity.
  - apply NoDup_fst_map_to_list.
Qed.

(** X12. Share, then list: after the owner has shared a file with an
    address, [getSharedFiles] for that address returns the record, also
    when the file is private and its [expiresAt] is past. *)
Theorem shareFile_then_getSharedFiles (fileId email : string) (w : World) (f : FileData.t) :
  fileDocs w !! fileId = Some f ->
  exists l f',
    result (getSharedFiles email (world (shareFile fileId (FileData.userId f) email w)))
    = Returned l
    /\ (fileId, f') ∈ l
    /\ FileData.userId f' = FileData.userId f
    /\ FileData.isPublic f' = FileData.isPublic f
    /\ FileData.expiresAt f' = FileData.expiresAt f.
Proof.
  intros Hf. rewrite (shareFile_by_owner _ _ _ _ Hf), world_pair, getSharedFiles_unfold.
  eexists. exists (set_sharedWith (arrayUnion email (FileData.sharedWith f)) f).
  rewrite result_pair. split; [reflexivity |].
  split; [| repeat split].
  apply elem_of_map_to_list, map_lookup_filter_Some. cbn [fileDocs snd].
  split; [apply lookup_insert_eq |].
  apply bool_decide_pack. cbn. apply elem_of_arrayUnion. left. reflexivity.
Qed.

Lemma shareFile_then_getSharedFiles_witness :
  exists l f',
    result (getSharedFiles "bob@example.org"
              (world (shareFile "notes" "alice" "bob@example.org" Sample.store)))
    = Returned l
    /\ ("notes", f') ∈ l
    /\ FileData.isPublic f' = false.
Proof.
  destruct (shareFile_then_getSharedFiles "notes" "bob@example.org" Sample.store
              Sample.notes) as (l & f' & Hrun & Hin & _ & Hprivate & _).
  - vm_compute. reflexivity.
  - exists l, f'. split; [exact Hrun |]. split; [exact Hin | exact Hprivate].
Defined.

(** ** Links: what [generateShareableLink] opens *)



(** X14. An unprotected file accepts every password; after the owner's
    [generateShareableLink] with a non-empty password, in an update that
    the store takes, it is protected, accepts that password and refuses
    every password with another digest. *)
Theorem generateShareableLink_sets_password
    (origin fileId pw : string) (options : option Options.t) (now : Z)
    (w : World) (f : FileData.t) :
  fileDocs w !! fileId = Some f ->
  FileData.protected f = false ->
  opt_password options = Some pw ->
  pw <> "" ->
  UpdateData.storable (updateData (zoneOf w) options now) = true ->
  let w' := world (generateShareableLink origin fileId (FileData.userId f) options now w) in
  (forall any, verifyFilePassword fileId any w = (Returned true, w))
  /\ (exists f', fileDocs w' !! fileId = Some f'
                 /\ FileData.isPasswordProtected f' = Some true
                 /\ FileData.password f' = Some (hashPassword pw))
  /\ verifyFilePassword fileId pw w' = (Returned true, w')
  /\ (forall other, hashPassword other <> hashPassword pw ->
        verifyFilePassword fileId other w' = (Returned false, w')).
Proof.
  intros Hf Hopen Hpw Hnonempty Htaken w'. subst w'.
  rewrite (generateShareableLink_by_owner _ _ _ _ _ _ Hf), Htaken, world_pair.
  set (f' := UpdateData.apply (updateData (zoneOf w) options now) f).
  assert (Hflag : FileData.isPasswordProtected f' = Some true).
  { unfold f'. rewrite updateData_isPasswordProtected, Hpw,
      (truthy_string_true _ Hnonempty). reflexivity. }
  assert (Hhash : FileData.password f' = Some (hashPassword pw)).
  { unfold f'. rewrite updateData_password, Hpw, (truthy_string_true _ Hnonempty).
    reflexivity. }
  assert (Hprot : FileData.protected f' = true)
    by (unfold FileData.protected; rewrite Hflag; reflexivity).
  match goal with
  | |- context [mkWorld ?files ?users ?reqs ?sets] => set (w' := mkWorld files users reqs sets)
  end.
  assert (Hstored : fileDocs w' !! fileId = Some f') by apply lookup_insert_eq.
  split; [| split; [| split]].
  - intros any. rewrite (verifyFilePassword_found _ _ _ _ Hf), Hopen. reflexivity.
  - exists f'. done.
  - rewrite (verifyFilePassword_found _ _ _ _ Hstored), Hprot, Hhash.
    rewrite bool_decide_eq_true_2; reflexivity.
  - intros other Hother.
    rewrite (verifyFilePassword_found _ _ _ _ Hstored), Hprot, Hhash.
    rewrite bool_decide_eq_false_2; [reflexivity | congruence].
Qed.

Lemma generateShareableLink_sets_password_witness :
  let w' := world (generateShareableLink Sample.origin "report" "alice"
                     (Some (Options.mk (Num 1) (Some "secret"))) 7 Sample.store) in
  verifyFilePassword "report" "secret" w' = (Returned true, w')
  /\ verifyFilePassword "report" "wrong" w' = (Returned false, w').
Proof.
  destruct (generateShareableLink_sets_password Sample.origin "report" "secret"
              (Some (Options.mk (Num 1) (Some "secret"))) 7 Sample.store Sample.report)
    as (_ & _ & Hsame & Hother).
  - vm_compute. reflexivity.
  - reflexivity.
  - reflexivity.
  - discriminate.
  - vm_compute. reflexivity.
  - split; [exact Hsame |]. apply Hother. vm_compute. discriminate.
Defined.

(** ** What every sequence of calls keeps *)

Lemma same_file_refl (f : FileData.t) : same_file f f.
Proof. unfold same_file. done. Qed.

Lemma same_file_trans (f0 f1 f2 : FileData.t) :
  same_file f0 f1 -> same_file f1 f2 -> same_file f0 f2.
Proof.
  unfold same_file. intros (-> & -> & -> & Hpub1 & Hprot1) (-> & -> & -> & Hpub2 & Hprot2).
  repeat split; auto.
Qed.

Lemma same_file_shared (f : FileData.t) (readers : list string) :
  same_file f (set_sharedWith readers f).
Proof. unfold same_file. done. Qed.

Lemma same_file_linked (zone : TimeZone.t) (f : FileData.t) (options : option Options.t)
    (now : Z) :
  same_file f (UpdateData.apply (updateData zone options now) f).
Proof.
  unfold same_file. repeat split.
  - intros _. cbn. apply updateData_isPublic.
  - unfold FileData.protected. rewrite updateData_isPasswordProtected.
    destruct (opt_password options) as [pw|]; [| done].
    destruct (truthy_string pw); done.
Qed.

Lemma records_kept_refl (id : string) (files : gmap string FileData.t) :
  records_kept id files files.
Proof.
  unfold records_kept. destruct (files !! id) as [f|]; [apply same_file_refl | done].
Qed.

Lemma records_kept_trans (id : string) (m0 m1 m2 : gmap string FileData.t) :
  records_kept id m0 m1 -> records_kept id m1 m2 -> records_kept id m0 m2.
Proof.
  unfold records_kept.
  destruct (m0 !! id) as [f0|]; destruct (m1 !! id) as [f1|]; destruct (m2 !! id) as [f2|];
    try done.
  apply same_file_trans.
Qed.

Lemma records_kept_delete (id k : string) (files : gmap string FileData.t) :
  records_kept id files (delete k files).
Proof.
  unfold records_kept. destruct (decide (k = id)) as [-> | Hne].
  - rewrite lookup_delete_eq. destruct (files !! id); done.
  - rewrite lookup_delete_ne by done.
    destruct (files !! id) as [f|]; [apply same_file_refl | done].
Qed.

Lemma records_kept_insert_other (id k : string) (f : FileData.t)
    (files : gmap string FileData.t) :
  k <> id -> records_kept id files (<[k := f]> files).
Proof.
  intros Hne. unfold records_kept. rewrite lookup_insert_ne by done.
  destruct (files !! id) as [f0|]; [apply same_file_refl | done].
Qed.

Lemma records_kept_rewrite (id k : string) (f f' : FileData.t)
    (files : gmap string FileData.t) :
  files !! k = Some f -> same_file f f' -> records_kept id files (<[k := f']> files).
Proof.
  intros Hf Hsame. destruct (decide (k = id)) as [-> | Hne].
  - unfold records_kept. rewrite Hf, lookup_insert_eq. exact Hsame.
  - apply records_kept_insert_other. exact Hne.
Qed.

Lemma uploadFile_files (cloud : Cloudinary.t) (newId : string) (file : File.t)
    (userId : string) (options : option Options.t) (now : Z) (w : World) :
  fileDocs (world (uploadFile cloud newId file userId options now w)) = fileDocs w
  \/ exists fd,
       fileDocs (world (uploadFile cloud newId file userId options now w))
       = <[newId := fd]> (fileDocs w).
Proof.
  destruct (userDocs w !! userId) as [p|] eqn:Hp.
  - destruct (Z_le_gt_dec (UserProfile.usedStorage p + File.size file)
                          (UserProfile.totalStorage p)) as [Hfits | Hover].
    + rewrite (uploadFile_unfold _ _ _ _ _ _ _ _ Hp Hfits). cbn zeta.
      destruct (Cloudinary.onUpload cloud) as [| response]; [by left |].
      destruct (names_blob response); [| by left].
      destruct (acceptable _ _); [right; by eexists | by left].
    + left. unfold uploadFile. run. rewrite Hp.
      apply Z.gt_lt, gtb_true_iff in Hover. rewrite Hover. reflexivity.
  - left. unfold uploadFile. run. rewrite Hp. reflexivity.
Qed.

Lemma perform_keeps_records (c : Call) (now : Z) (w : World) (id : string) :
  uploads_to id c = false ->
  records_kept id (fileDocs w) (fileDocs (perform c now w)).
Proof.
  intros Hupload. destruct c; cbn [perform].
  - cbn in Hupload. apply bool_decide_eq_false_1 in Hupload.
    destruct (uploadFile_files cloud newId file userId options now w) as [-> | [fd ->]].
    + apply records_kept_refl.
    + apply records_kept_insert_other. exact Hupload.
  - rewrite deleteFile_unfold.
    destruct (fileDocs w !! fileId) as [d|]; [| apply records_kept_refl].
    destruct (bool_decide _); [| apply records_kept_refl]. cbn zeta.
    destruct (Cloudinary.onDestroy cloud _); [apply records_kept_refl |].
    destruct (userDocs w !! userId); [| apply records_kept_refl].
    destruct (_ >? _); [apply records_kept_refl | apply records_kept_delete].
  - unfold shareFile. run.
    destruct (fileDocs w !! fileId) as [d|] eqn:Hd; [| apply records_kept_refl].
    destruct (bool_decide _); run; [| apply records_kept_refl].
    unfold updateDoc_file. rewrite Hd. rewrite world_pair. cbn [fileDocs].
    apply (records_kept_rewrite _ _ d); [exact Hd | apply same_file_shared].
  - unfold generateShareableLink. run.
    destruct (fileDocs w !! fileId) as [d|] eqn:Hd; [| apply records_kept_refl].
    destruct (bool_decide _); run; [| apply records_kept_refl]. cbn zeta.
    destruct (UpdateData.storable _); run; [| apply records_kept_refl].
    unfold updateDoc_file. run. rewrite Hd. run. rewrite world_pair. cbn [fileDocs].
    apply (records_kept_rewrite _ _ d); [exact Hd | apply same_file_linked].
  - destruct (fileDocs w !! fileId) as [d|] eqn:Hd.
    + rewrite (verifyFilePassword_found _ _ _ _ Hd). apply records_kept_refl.
    + unfold verifyFilePassword. run. rewrite Hd. apply records_kept_refl.
  - rewrite getPublicFile_unfold. apply records_kept_refl.
  - rewrite getUserFiles_unfold. apply records_kept_refl.
  - rewrite getSharedFiles_unfold. apply records_kept_refl.
  - destruct (cleanupExpiredFiles_effect cloud now w)
      as (w' & removed & -> & _ & _ & Hlook & _).
    rewrite world_pair. unfold records_kept. rewrite Hlook.
    destruct (bool_decide (id ∈ removed.*1)).
    + destruct (fileDocs w !! id); done.
    + destruct (fileDocs w !! id) as [f|]; [apply same_file_refl | done].
Qed.

(** X15. Whatever calls of the file service follow, none of them an
    upload under the id of a record, the record, as long as it exists,
    keeps its owner, its size and its blob, stays public once it is
    public and stays protected once it is protected; and an id without
    record stays without record. *)
Theorem calls_keep_owner_size_and_openness
    (calls : list (Call * Z)) (w : World) (id : string) :
  Forall (fun c => uploads_to id c.1 = false) calls ->
  match fileDocs w !! id with
  | Some f0 =>
      match fileDocs (performAll calls w) !! id with
      | Some f =>
          FileData.userId f = FileData.userId f0
          /\ FileData.size f = FileData.size f0
          /\ FileData.publicId f = FileData.publicId f0
          /\ (FileData.isPublic f0 = true -> FileData.isPublic f = true)
          /\ (FileData.protected f0 = true -> FileData.protected f = true)
      | None => True
      end
  | None => fileDocs (performAll calls w) !! id = None
  end.
Proof.
  intros Hcalls.
  enough (Hkept : records_kept id (fileDocs w) (fileDocs (performAll calls w)))
    by exact Hkept.
  revert w. induction Hcalls as [| [c now] calls Hc _ IH]; intros w.
  - apply records_kept_refl.
  - cbn [performAll]. eapply records_kept_trans; [| apply IH].
    apply perform_keeps_records. exact Hc.
Qed.

Lemma calls_keep_owner_size_and_openness_witness :
  let calls :=
    [(CallGenerateShareableLink Sample.origin "notes" "alice"
        (Some (Options.mk (Num 1) None)), 7);
     (CallShareFile "notes" "alice" "bob@example.org", 8);
     (CallCleanupExpiredFiles Sample.online, 9);
     (CallGetPublicFile "notes", 10)] in
  match fileDocs (performAll calls Sample.store) !! "notes" with
  | Some f =>
      FileData.userId f = "alice" /\ FileData.size f = 100
      /\ FileData.protected f = true
  | None => True
  end.
Proof.
  cbv zeta.
  pose proof (calls_keep_owner_size_and_openness
    [(CallGenerateShareableLink Sample.origin "notes" "alice"
        (Some (Options.mk (Num 1) None)), 7);
     (CallShareFile "notes" "alice" "bob@example.org", 8);
     (CallCleanupExpiredFiles Sample.online, 9);
     (CallGetPublicFile "notes", 10)] Sample.store "notes") as Hkept.
  assert (Hnotes : fileDocs Sample.store !! "notes" = Some Sample.notes)
    by (vm_compute; reflexivity).
  rewrite Hnotes in Hkept.
  destruct (fileDocs (performAll _ Sample.store) !! "notes") as [f|]; [| exact I].
  destruct Hkept as (Howner & Hsize & _ & _ & Hprot).
  - repeat constructor.
  - split; [exact Howner |]. split; [exact Hsize |]. apply Hprot. reflexivity.
Defined.

Lemma ledger_kept_refl (us : gmap string UserProfile.t) : ledger_kept us us.
Proof. intros u p Hp. exists p. split; [done |]. split; [done | by left]. Qed.

Lemma ledger_kept_trans (us0 us1 us2 : gmap string UserProfile.t) :
  ledger_kept us0 us1 -> ledger_kept us1 us2 -> ledger_kept us0 us2.
Proof.
  intros H01 H12 u p Hp.
  destruct (H01 u p Hp) as (p1 & Hp1 & Ht1 & Hu1).
  destruct (H12 u p1 Hp1) as (p2 & Hp2 & Ht2 & Hu2).
  exists p2. split; [exact Hp2 |]. split; [congruence |].
  destruct Hu2 as [Hu2 | Hu2]; [| by right].
  destruct Hu1 as [Hu1 | Hu1]; [left; congruence | right; lia].
Qed.

Lemma ledger_kept_insert (uid : string) (p p' : UserProfile.t)
    (us : gmap string UserProfile.t) :
  us !! uid = Some p ->
  UserProfile.totalStorage p' = UserProfile.totalStorage p ->
  (UserProfile.usedStorage p' = UserProfile.usedStorage p
   \/ UserProfile.usedStorage p' <= UserProfile.totalStorage p') ->
  ledger_kept us (<[uid := p']> us).
Proof.
  intros Hp Htotal Hused u q Hq. destruct (decide (uid = u)) as [<- | Hne].
  - rewrite lookup_insert_eq. exists p'. rewrite Hp in Hq. injection Hq as <-. done.
  - rewrite lookup_insert_ne by done. exists q. split; [done |]. split; [done | by left].
Qed.

Lemma uploadFile_ledger (cloud : Cloudinary.t) (newId : string) (file : File.t)
    (userId : string) (options : option Options.t) (now : Z) (w : World) :
  ledger_kept (userDocs w)
    (userDocs (world (uploadFile cloud newId file userId options now w))).
Proof.
  destruct (userDocs w !! userId) as [p|] eqn:Hp.
  - destruct (Z_le_gt_dec (UserProfile.usedStorage p + File.size file)
                          (UserProfile.totalStorage p)) as [Hfits | Hover].
    + rewrite (uploadFile_unfold _ _ _ _ _ _ _ _ Hp Hfits). cbn zeta.
      destruct (Cloudinary.onUpload cloud) as [| response]; [apply ledger_kept_refl |].
      destruct (names_blob response); [| apply ledger_kept_refl].
      destruct (acceptable _ _); [| apply ledger_kept_refl].
      rewrite world_pair. cbn [userDocs].
      apply (ledger_kept_insert _ p); [exact Hp | reflexivity | right; exact Hfits].
    + unfold uploadFile. run. rewrite Hp.
      apply Z.gt_lt, gtb_true_iff in Hover. rewrite Hover. apply ledger_kept_refl.
  - unfold uploadFile. run. rewrite Hp. apply ledger_kept_refl.
Qed.

Lemma deleteFile_ledger (cloud : Cloudinary.t) (fileId userId : string) (now : Z)
    (w : World) :
  ledger_kept (userDocs w) (userDocs (world (deleteFile cloud fileId userId now w))).
Proof.
  rewrite deleteFile_unfold.
  destruct (fileDocs w !! fileId) as [d|]; [| apply ledger_kept_refl].
  destruct (bool_decide _); [| apply ledger_kept_refl]. cbn zeta.
  destruct (Cloudinary.onDestroy cloud _); [apply ledger_kept_refl |].
  destruct (userDocs w !! userId) as [p|] eqn:Hp; [| apply ledger_kept_refl].
  destruct (_ >? _) eqn:Hcheck; rewrite world_pair; cbn [userDocs].
  - apply (ledger_kept_insert _ p); [exact Hp | reflexivity | by left].
  - apply (ledger_kept_insert _ p); [exact Hp | reflexivity |].
    right. apply gtb_false_iff in Hcheck. exact Hcheck.
Qed.

Lemma forEach_autoDelete_ledger (cloud : Cloudinary.t) (now : Z)
    (l : list (string * FileData.t)) :
  forall w : World,
    ledger_kept (userDocs w) (userDocs (world (forEach (autoDelete cloud now) l w))).
Proof.
  induction l as [| doc l IH]; intros w.
  - apply ledger_kept_refl.
  - cbn [forEach]. rewrite run_bind.
    assert (Hstep : exists w1, autoDelete cloud now doc w = (Returned tt, w1)
                               /\ ledger_kept (userDocs w) (userDocs w1)).
    { unfold autoDelete. run.
      destruct (truthy_string _);
        [| exists w; split; [reflexivity | apply ledger_kept_refl]].
      pose proof (deleteFile_ledger cloud doc.1 (FileData.userId doc.2) now w) as Hkept.
      destruct (deleteFile cloud doc.1 (FileData.userId doc.2) now w) as [[[]|e] w1];
        exists w1; split; done. }
    destruct Hstep as (w1 & -> & Hkept).
    eapply ledger_kept_trans; [exact Hkept | apply IH].
Qed.

Lemma perform_keeps_ledger (c : Call) (now : Z) (w : World) :
  ledger_kept (userDocs w) (userDocs (perform c now w)).
Proof.
  destruct c; cbn [perform].
  - apply uploadFile_ledger.
  - apply deleteFile_ledger.
  - unfold shareFile. run.
    destruct (fileDocs w !! fileId) as [d|] eqn:Hd; [| apply ledger_kept_refl].
    destruct (bool_decide _); run; [| apply ledger_kept_refl].
    unfold updateDoc_file. rewrite Hd. apply ledger_kept_refl.
  - unfold generateShareableLink. run.
    destruct (fileDocs w !! fileId) as [d|] eqn:Hd; [| apply ledger_kept_refl].
    destruct (bool_decide _); run; [| apply ledger_kept_refl]. cbn zeta.
    destruct (UpdateData.storable _); run; [| apply ledger_kept_refl].
    unfold updateDoc_file. run. rewrite Hd. apply ledger_kept_refl.
  - destruct (fileDocs w !! fileId) as [d|] eqn:Hd.
    + rewrite (verifyFilePassword_found _ _ _ _ Hd). apply ledger_kept_refl.
    + unfold verifyFilePassword. run. rewrite Hd. apply ledger_kept_refl.
  - rewrite getPublicFile_unfold. apply ledger_kept_refl.
  - rewrite getUserFiles_unfold. apply ledger_kept_refl.
  - rewrite getSharedFiles_unfold. apply ledger_kept_refl.
  - unfold cleanupExpiredFiles, getDocs_files. run.
    match goal with
    | |- context [forEach (autoDelete cloud now) ?l w] =>
        pose proof (forEach_autoDelete_ledger cloud now l w) as Hkept;
        destruct (forEach (autoDelete cloud now) l w) as [[[]|e] w1]
    end; exact Hkept.
Qed.

(** X16. Whatever calls of the file service are made, in any order and
    whatever the blob store does, every profile stays in the store with
    its [totalStorage], and a [usedStorage] that was within
    [totalStorage] is within it afterwards. *)
Theorem calls_keep_quota_ledger (calls : list (Call * Z)) (w : World)
    (u : string) (p : UserProfile.t) :
  userDocs w !! u = Some p ->
  exists p',
    userDocs (performAll calls w) !! u = Some p'
    /\ UserProfile.totalStorage p' = UserProfile.totalStorage p
    /\ (UserProfile.usedStorage p <= UserProfile.totalStorage p ->
        UserProfile.usedStorage p' <= UserProfile.totalStorage p').
Proof.
  intros Hp.
  enough (Hkept : ledger_kept (userDocs w) (userDocs (performAll calls w))).
  { destruct (Hkept u p Hp) as (p' & Hp' & Htotal & Hused).
    exists p'. split; [exact Hp' |]. split; [exact Htotal |].
    destruct Hused as [Hsame | Hwithin]; lia. }
  clear. revert w. induction calls as [| [c now] calls IH]; intros w.
  - apply ledger_kept_refl.
  - cbn [performAll]. eapply ledger_kept_trans; [apply perform_keeps_ledger | apply IH].
Qed.

Lemma calls_keep_quota_ledger_witness :
  exists p',
    userDocs (performAll
                [(CallUploadFile Sample.online "new" Scenario.photo "alice" None, 7);
                 (CallDeleteFile Sample.online "report" "alice", 8);
                 (CallCleanupExpiredFiles Sample.offline, 100)]
                Sample.store) !! "alice" = Some p'
    /\ UserProfile.totalStorage p' = 1000
    /\ UserProfile.usedStorage p' <= UserProfile.totalStorage p'.
Proof.
  destruct (calls_keep_quota_ledger
              [(CallUploadFile Sample.online "new" Scenario.photo "alice" None, 7);
               (CallDeleteFile Sample.online "report" "alice", 8);
               (CallCleanupExpiredFiles Sample.offline, 100)]
              Sample.store "alice" Sample.alice)
    as (p' & Hp' & Htotal & Hwithin).
  - vm_compute. reflexivity.
  - exists p'. split; [exact Hp' |]. split; [exact Htotal |].
    apply Hwithin. vm_compute. discriminate.
Defined.

(** ** More on the sweep *)

(** X17. A sweep touches only what its query matches: a record that is
    private, or has no [expiresAt], or has an [expiresAt] not earlier
    than the time of the sweep, is in the store afterwards as it was, and
    each id holds afterwards the record it held or none. *)
Theorem cleanupExpiredFiles_touches_only_matches (cloud : Cloudinary.t) (now : Z)
    (w : World) :
  let w' := world (cleanupExpiredFiles cloud now w) in
  (forall id f, fileDocs w !! id = Some f -> expiredFilesQuery now f = false ->
     fileDocs w' !! id = Some f)
  /\ (forall id, fileDocs w' !! id = None \/ fileDocs w' !! id = fileDocs w !! id).
Proof.
  destruct (cleanupExpiredFiles_effect cloud now w)
    as (w' & removed & Hrun & _ & Hremoved & Hlook & _).
  rewrite Hrun, world_pair. cbv zeta. split.
  - intros id f Hf Hquery. rewrite Hlook, bool_decide_eq_false_2; [exact Hf |].
    intros ([id' d] & -> & Hin)%list_elem_of_fmap. cbn [fst] in *.
    destruct (Hremoved _ _ Hin) as [Hd Hmatch].
    rewrite Hf in Hd. injection Hd as <-. rewrite Hquery in Hmatch. exact Hmatch.
  - intros id. rewrite Hlook. destruct (bool_decide _); [by left | by right].
Qed.

Lemma forEach_autoDelete_all (cloud : Cloudinary.t) (now : Z)
    (l : list (string * FileData.t)) :
  (forall publicId, exists ok,
      Cloudinary.onDestroy cloud publicId = Cloudinary.DestroyAnswers ok) ->
  forall w : World,
    NoDup l.*1 ->
    (forall id d, (id, d) ∈ l ->
       fileDocs w !! id = Some d
       /\ FileData.userId d <> ""
       /\ is_Some (userDocs w !! FileData.userId d)
       /\ 0 <= FileData.size d) ->
    (forall u p, userDocs w !! u = Some p ->
       UserProfile.usedStorage p <= UserProfile.totalStorage p) ->
    exists w',
      forEach (autoDelete cloud now) l w = (Returned tt, w')
      /\ (forall k, fileDocs w' !! k
                    = if bool_decide (k ∈ l.*1) then None else fileDocs w !! k)
      /\ quota_released (fun u => releasedBytes u l) (userDocs w) (userDocs w').
Proof.
  intros Hup. induction l as [| doc l IH]; intros w Hnodup Hgood Hwithin.
  - exists w. split; [reflexivity |].
    split; [intros k; reflexivity | apply quota_released_refl].
  - rewrite fmap_cons in Hnodup. apply NoDup_cons in Hnodup as [Hfresh Hnodup].
    destruct (Hgood doc.1 doc.2) as (Hdoc & Hnamed & [p Hp] & Hsize).
    { destruct doc. left. }
    destruct (Hup (FileData.publicId doc.2)) as [ok Hok].
    pose proof (Hwithin _ _ Hp) as Hbound.
    cbn [forEach]. rewrite run_bind. unfold autoDelete at 1. run.
    rewrite (truthy_string_true _ Hnamed), deleteFile_unfold, Hdoc.
    rewrite bool_decide_eq_true_2 by reflexivity. cbn zeta. rewrite Hok, Hp.
    assert (Hfits : (UserProfile.usedStorage p - FileData.size doc.2
                     >? UserProfile.totalStorage p) = false)
      by (apply gtb_false_iff; lia).
    rewrite Hfits.
    match goal with
    | |- context [forEach _ l ?w1] => destruct (IH w1) as (w' & Hrun & Hlook & Hrel)
    end.
    + exact Hnodup.
    + intros id d Hin. cbn [fileDocs userDocs].
      destruct (Hgood id d) as (Hd & Hn & Hu & Hs); [by right |].
      split; [| split; [exact Hn | split; [| exact Hs]]].
      * rewrite lookup_delete_ne; [exact Hd |].
        intros <-. apply Hfresh, list_elem_of_fmap. exists (doc.1, d). done.
      * destruct (decide (FileData.userId doc.2 = FileData.userId d)) as [<- | Hne].
        -- rewrite lookup_insert_eq. by eexists.
        -- rewrite lookup_insert_ne by done. exact Hu.
    + intros u q. cbn [userDocs].
      destruct (decide (FileData.userId doc.2 = u)) as [<- | Hne].
      * rewrite lookup_insert_eq. intros [= <-]. cbn. lia.
      * rewrite lookup_insert_ne by done. apply Hwithin.
    + exists w'. split; [exact Hrun |]. split.
      * intros k. rewrite Hlook. cbn [fileDocs]. rewrite fmap_cons.
        destruct (decide (k = doc.1)) as [-> | Hne].
        -- rewrite lookup_delete_eq.
           rewrite (bool_decide_eq_true_2 (doc.1 ∈ doc.1 :: l.*1)) by left.
           destruct (bool_decide _); reflexivity.
        -- rewrite lookup_delete_ne by done.
           destruct (decide (k ∈ l.*1)) as [Hin | Hout].
           ++ rewrite !bool_decide_eq_true_2; [done | by right | done].
           ++ rewrite !bool_decide_eq_false_2; [done | | done].
              intros [Heq | Hin]%elem_of_cons; done.
      * eapply quota_released_trans; [| | exact Hrel].
        -- intros u. rewrite releasedBytes_cons. reflexivity.
        -- cbn [userDocs]. apply quota_released_charge. exact Hp.
Qed.

(** X18. A sweep on a healthy store: when the blob store answers, every
    matched record has an owner with a profile and a size that is not
    negative, no two matched records have the same owner, and every
    [usedStorage] is within [totalStorage], the sweep removes exactly the
    matched records, releases their sizes from their owners'
    [usedStorage], returns their number, and a second sweep at the same
    time returns 0. *)
Theorem cleanupExpiredFiles_on_healthy_store (cloud : Cloudinary.t) (now : Z) (w : World) :
  (forall publicId, exists ok,
      Cloudinary.onDestroy cloud publicId = Cloudinary.DestroyAnswers ok) ->
  (forall id d, fileDocs w !! id = Some d -> expiredFilesQuery now d = true ->
     FileData.userId d <> ""
     /\ is_Some (userDocs w !! FileData.userId d)
     /\ 0 <= FileData.size d) ->
  (forall id d id' d',
     fileDocs w !! id = Some d -> expiredFilesQuery now d = true ->
     fileDocs w !! id' = Some d' -> expiredFilesQuery now d' = true ->
     FileData.userId d = FileData.userId d' -> id = id') ->
  (forall u p, userDocs w !! u = Some p ->
     UserProfile.usedStorage p <= UserProfile.totalStorage p) ->
  let matched :=
    map_to_list (filter (fun kv => expiredFilesQuery now kv.2) (fileDocs w)) in
  let r := cleanupExpiredFiles cloud now w in
  result r = Returned (length matched)
  /\ (forall id d, fileDocs w !! id = Some d ->
        fileDocs (world r) !! id = if expiredFilesQuery now d then None else Some d)
  /\ quota_released (fun u => releasedBytes u matched) (userDocs w) (userDocs (world r))
  /\ result (cleanupExpiredFiles cloud now (world r)) = Returned 0%nat.
Proof.
  intros Hup Hgood _ Hwithin matched r.
  assert (Hmatched : forall id d, (id, d) ∈ matched <->
                       fileDocs w !! id = Some d /\ expiredFilesQuery now d).
  { intros id d. unfold matched. rewrite elem_of_map_to_list, map_lookup_filter_Some.
    reflexivity. }
  destruct (forEach_autoDelete_all cloud now matched Hup w)
    as (w' & Hrun & Hlook & Hrel).
  { apply NoDup_fst_map_to_list. }
  { intros id d [Hd Hq]%Hmatched. split; [exact Hd |].
    apply (Hgood id d); [exact Hd | apply Is_true_true; exact Hq]. }
  { exact Hwithin. }
  assert (Hr : r = (Returned (length matched), w')).
  { unfold r, cleanupExpiredFiles, getDocs_files. run. fold matched. rewrite Hrun.
    reflexivity. }
  rewrite Hr, result_pair, world_pair.
  assert (Hafter : forall id d, fileDocs w !! id = Some d ->
            fileDocs w' !! id = if expiredFilesQuery now d then None else Some d).
  { intros id d Hd. rewrite Hlook.
    destruct (expiredFilesQuery now d) eqn:Hq.
    - rewrite bool_decide_eq_true_2; [reflexivity |].
      apply list_elem_of_fmap. exists (id, d). split; [reflexivity |].
      apply Hmatched. split; [exact Hd | rewrite Hq; exact I].
    - rewrite bool_decide_eq_false_2; [exact Hd |].
      intros ([id' d'] & -> & [Hd' Hq']%Hmatched)%list_elem_of_fmap. cbn [fst] in *.
      rewrite Hd in Hd'. injection Hd' as <-. rewrite Hq in Hq'. exact Hq'. }
  split; [reflexivity |]. split; [exact Hafter |]. split; [exact Hrel |].
  assert (Hnone : filter (fun kv => expiredFilesQuery now kv.2) (fileDocs w') = ∅).
  { apply map_empty. intros id. apply map_lookup_filter_None. right.
    intros d Hd Hq. cbn [snd] in Hq. pose proof Hd as Hbefore.
    rewrite Hlook in Hbefore.
    destruct (bool_decide (id ∈ matched.*1)); [discriminate |].
    rewrite (Hafter id d Hbefore) in Hd.
    apply Is_true_true in Hq. rewrite Hq in Hd. discriminate. }
  unfold cleanupExpiredFiles, getDocs_files. run. rewrite Hnone, map_to_list_empty.
  reflexivity.
Qed.

Lemma cleanupExpiredFiles_on_healthy_store_witness :
  let r := cleanupExpiredFiles Sample.online 100 Sample.store in
  result r = Returned 1%nat
  /\ fileDocs (world r) !! "report" = None
  /\ fileDocs (world r) !! "notes" = Some Sample.notes
  /\ result (cleanupExpiredFiles Sample.online 100 (world r)) = Returned 0%nat.
Proof.
  assert (Hreport : fileDocs Sample.store !! "report" = Some Sample.report)
    by (vm_compute; reflexivity).
  assert (Hnotes : fileDocs Sample.store !! "notes" = Some Sample.notes)
    by (vm_compute; reflexivity).
  destruct (cleanupExpiredFiles_on_healthy_store Sample.online 100 Sample.store)
    as (Hcount & Hafter & _ & Hagain).
  - intros publicId. exists true. reflexivity.
  - intros id d Hd Hq.
    destruct (decide (id = "report")) as [-> | Hne1].
    + rewrite Hreport in Hd. injection Hd as <-.
      split; [discriminate |]. split; [by eexists | vm_compute; discriminate].
    + destruct (decide (id = "notes")) as [-> | Hne2].
      * rewrite Hnotes in Hd. injection Hd as <-. discriminate.
      * unfold Sample.store in Hd. cbn [fileDocs] in Hd.
        rewrite !lookup_insert_ne, lookup_empty in Hd by done. discriminate.
  - assert (Honly : forall id d, fileDocs Sample.store !! id = Some d ->
                      expiredFilesQuery 100 d = true -> id = "report").
    { intros id d Hd Hq.
      destruct (decide (id = "report")) as [-> | Hne1]; [reflexivity |].
      destruct (decide (id = "notes")) as [-> | Hne2].
      - rewrite Hnotes in Hd. injection Hd as <-. discriminate.
      - unfold Sample.store in Hd. cbn [fileDocs] in Hd.
        rewrite !lookup_insert_ne, lookup_empty in Hd by done. discriminate. }
    intros id d id' d' Hd Hq Hd' Hq' _.
    rewrite (Honly _ _ Hd Hq), (Honly _ _ Hd' Hq'). reflexivity.
  - intros u p Hp. destruct (decide (u = "alice")) as [-> | Hne].
    + vm_compute in Hp. injection Hp as <-. vm_compute. discriminate.
    + unfold Sample.store in Hp. cbn [userDocs] in Hp.
      rewrite lookup_insert_ne, lookup_empty in Hp by done. discriminate.
  - cbv zeta. split; [| split; [| split]].
    + rewrite Hcount. vm_compute. reflexivity.
    + rewrite (Hafter _ _ Hreport). reflexivity.
    + rewrite (Hafter _ _ Hnotes). reflexivity.
    + exact Hagain.
Defined.

(** ** userService.ts *)

(** X19. [createUserProfile] stores a profile with a quota of 1 GiB,
    nothing used and no files, which [getUserProfile] then returns; the
    other profiles and the file records are untouched. It does so also
    when the user had a profile: the old one is replaced and its usage
    is forgotten. *)
Theorem createUserProfile_starts_empty (uid email : string) (now : Z) (w : World) :
  let r := createUserProfile uid email now w in
  exists p,
    result r = Returned p
    /\ getUserProfile uid (world r) = (Returned (Some p), world r)
    /\ UserProfile.uid p = uid
    /\ UserProfile.email p = email
    /\ UserProfile.totalStorage p = 2 ^ 30
    /\ UserProfile.usedStorage p = 0
    /\ UserProfile.files p = []
    /\ (forall u, u <> uid -> userDocs (world r) !! u = userDocs w !! u)
    /\ fileDocs (world r) = fileDocs w.
Proof.
  cbv zeta. unfold createUserProfile, setDoc_user. run.
  eexists. rewrite result_pair, world_pair. split; [reflexivity |].
  split; [cbn [userDocs]; rewrite lookup_insert_eq; reflexivity |].
  repeat split. intros u Hu. cbn [userDocs]. apply lookup_insert_ne. congruence.
Qed.

(** X20. Charging the ledger: [updateUserStorage] with [isAddition]
    throws for a user without profile; it throws and changes nothing when
    the sum would exceed [totalStorage]; otherwise it adds the bytes to
    [usedStorage], stamps [updatedAt], and changes nothing else of the
    profile and no other profile. *)
Theorem updateUserStorage_charge (uid : string) (bytes now : Z) (w : World) :
  (userDocs w !! uid = None ->
   updateUserStorage uid bytes true now w = (Thrown UserProfileNotFound, w))
  /\ (forall p, userDocs w !! uid = Some p ->
        UserProfile.totalStorage p < UserProfile.usedStorage p + bytes ->
        updateUserStorage uid bytes true now w = (Thrown StorageQuotaExceeded, w))
  /\ (forall p, userDocs w !! uid = Some p ->
        UserProfile.usedStorage p + bytes <= UserProfile.totalStorage p ->
        let r := updateUserStorage uid bytes true now w in
        result r = Returned tt
        /\ userDocs (world r) !! uid
           = Some (UserProfile.mk (UserProfile.uid p) (UserProfile.email p)
                     (UserProfile.createdAt p) now (UserProfile.totalStorage p)
                     (UserProfile.usedStorage p + bytes) (UserProfile.files p)
                     (UserProfile.sharedFiles p))
        /\ (forall u, u <> uid -> userDocs (world r) !! u = userDocs w !! u)
        /\ fileDocs (world r) = fileDocs w).
Proof.
  split; [| split].
  - intros Hnone. unfold updateUserStorage. run. rewrite Hnone. reflexivity.
  - intros p Hp Hover. rewrite (updateUserStorage_unfold _ _ _ _ _ _ Hp).
    unfold newUsedStorage. apply gtb_true_iff in Hover. rewrite Hover. reflexivity.
  - intros p Hp Hfits r. subst r. rewrite (updateUserStorage_unfold _ _ _ _ _ _ Hp).
    unfold newUsedStorage. apply gtb_false_iff in Hfits. rewrite Hfits.
    rewrite result_pair, world_pair. cbn [userDocs fileDocs].
    split; [reflexivity |]. split; [apply lookup_insert_eq |].
    split; [| reflexivity]. intros u Hu. apply lookup_insert_ne. congruence.
Qed.

Lemma updateUserStorage_charge_witness :
  updateUserStorage "nobody" 10 true 9 Sample.store
  = (Thrown UserProfileNotFound, Sample.store)
  /\ updateUserStorage "alice" 401 true 9 Sample.store
     = (Thrown StorageQuotaExceeded, Sample.store)
  /\ result (updateUserStorage "alice" 400 true 9 Sample.store) = Returned tt.
Proof.
  assert (Halice : userDocs Sample.store !! "alice" = Some Sample.alice)
    by (vm_compute; reflexivity).
  destruct (updateUserStorage_charge "nobody" 10 9 Sample.store) as (Hnone & _).
  destruct (updateUserStorage_charge "alice" 401 9 Sample.store) as (_ & Hover & _).
  destruct (updateUserStorage_charge "alice" 400 9 Sample.store) as (_ & _ & Hfits).
  split; [| split].
  - apply Hnone. vm_compute. reflexivity.
  - apply (Hover Sample.alice Halice). vm_compute. reflexivity.
  - apply (Hfits Sample.alice Halice). vm_compute. discriminate.
Defined.

(** ** The link dialog *)

Lemma ceilDiv_bounds (a b : Z) : 0 < b -> a <= ceilDiv a b * b < a + b.
Proof.
  intros Hb. unfold ceilDiv.
  pose proof (Z.div_mod (- a) b ltac:(lia)) as Hdiv.
  pose proof (Z.mod_pos_bound (- a) b Hb) as Hmod.
  nia.
Qed.

Lemma shareOptions_of_opened_dialog (f : FileData.t) (opened : Z) :
  let d := openShareModal f opened in
  Options.password
    (shareOptions f (Dialog.expirationHours d) (Dialog.passwordProtect d)
       (Dialog.password d))
  = None.
Proof.
  cbn. destruct (FileData.protected f); reflexivity.
Qed.

Lemma saveDialog_world (origin : string) (fileId : string) (f : FileData.t)
    (d : Dialog.t) (now : Z) (w : World) :
  fileDocs w !! fileId = Some f ->
  UpdateData.storable
    (updateData (zoneOf w)
       (Some (shareOptions f (Dialog.expirationHours d)
                (Dialog.passwordProtect d) (Dialog.password d)))
       now)
  = true ->
  world (saveDialog origin (FileData.userId f) (fileId, f) d now w)
  = mkWorld
      (<[fileId := UpdateData.apply
                     (updateData (zoneOf w)
                        (Some (shareOptions f (Dialog.expirationHours d)
                                 (Dialog.passwordProtect d) (Dialog.password d)))
                        now) f]> (fileDocs w))
      (userDocs w) (blobRequests w) (settings w).
Proof.
  intros Hf Htaken. unfold saveDialog. rewrite handleShareFile_world. cbn [fst snd].
  rewrite (generateShareableLink_by_owner _ _ _ _ _ _ Hf), Htaken. reflexivity.
Qed.

(** X21. Opening the link dialog on a file whose expiration is reached
    and saving it as it opened removes the expiration: the hours field
    shows 0, which counts as empty, and the file, public now, is returned
    by [getPublicFile] at every time from then on. Its protection is as
    before. *)
Theorem saveDialog_on_expired_file_removes_expiry
    (origin fileId : string) (w : World) (f : FileData.t) (e opened saved : Z) :
  fileDocs w !! fileId = Some f ->
  FileData.expiresAt f = Some e ->
  e <= opened ->
  let d := openShareModal f opened in
  let w' := world (saveDialog origin (FileData.userId f) (fileId, f) d saved w) in
  Dialog.expirationHours d = Some 0%Q
  /\ exists f',
       fileDocs w' !! fileId = Some f'
       /\ FileData.expiresAt f' = None
       /\ FileData.isPublic f' = true
       /\ FileData.isPasswordProtected f' = FileData.isPasswordProtected f
       /\ FileData.password f' = FileData.password f
       /\ forall t, getPublicFile fileId t w' = (Returned (Some (fileId, f')), w').
Proof.
  intros Hf He Hpast d w'.
  assert (Hhours : Dialog.expirationHours d = Some 0%Q).
  { unfold d, openShareModal. cbn [Dialog.expirationHours]. rewrite He.
    pose proof (ceilDiv_bounds (e - opened) (1000 * 60 * 60) ltac:(lia)).
    replace (Z.max 0 (ceilDiv (e - opened) (1000 * 60 * 60))) with 0 by lia.
    reflexivity. }
  split; [exact Hhours |].
  set (options := Some (shareOptions f (Dialog.expirationHours d)
                          (Dialog.passwordProtect d) (Dialog.password d))).
  assert (Hpw : opt_password options = None) by apply shareOptions_of_opened_dialog.
  assert (Hexp : opt_expiresIn options = Null).
  { unfold options. cbn [opt_expiresIn shareOptions Options.expiresIn].
    rewrite Hhours, He. reflexivity. }
  subst w'. rewrite (saveDialog_world _ _ _ _ _ _ Hf) by
    (apply storable_without_hours; left; exact Hexp).
  fold options.
  set (f' := UpdateData.apply (updateData (zoneOf w) options saved) f).
  assert (Hnone : FileData.expiresAt f' = None)
    by (cbn; rewrite updateData_expiresAt, Hexp; reflexivity).
  assert (Hpub : FileData.isPublic f' = true) by (cbn; apply updateData_isPublic).
  exists f'. cbn [fileDocs].
  split; [apply lookup_insert_eq |]. split; [exact Hnone |]. split; [exact Hpub |].
  split; [unfold f'; rewrite updateData_isPasswordProtected, Hpw; reflexivity |].
  split; [unfold f'; rewrite updateData_password, Hpw; reflexivity |].
  intros t. rewrite getPublicFile_unfold. cbn [fileDocs].
  rewrite lookup_insert_eq, Hpub, Hnone. reflexivity.
Qed.

Lemma saveDialog_on_expired_file_removes_expiry_witness :
  let w' := world (saveDialog Sample.origin "alice" ("report", Sample.report)
                     (openShareModal Sample.report 60) 61 Sample.store) in
  exists f',
    fileDocs w' !! "report" = Some f'
    /\ FileData.expiresAt f' = None
    /\ getPublicFile "report" 1000000 w' = (Returned (Some ("report", f')), w').
Proof.
  destruct (saveDialog_on_expired_file_removes_expiry Sample.origin "report" Sample.store
              Sample.report 50 60 61)
    as (_ & f' & Hstored & Hnone & _ & _ & _ & Hserved).
  - vm_compute. reflexivity.
  - reflexivity.
  - vm_compute. discriminate.
  - exists f'. split; [exact Hstored |]. split; [exact Hnone | apply Hserved].
Defined.



(** X23. A password set through the link dialog is stored trimmed: after
    [handleShareFile] by the owner on an unprotected file, with the hours
    field empty, the check box set and a password that is not blank,
    [verifyFilePassword] accepts the typed password without its
    surrounding white space, and refuses every password with another
    digest, the typed one with its white space included when its digest
    differs. *)
Theorem handleShareFile_stores_trimmed_password
    (origin fileId typed : string) (now : Z) (w : World) (f : FileData.t) :
  fileDocs w !! fileId = Some f ->
  FileData.protected f = false ->
  trim typed <> "" ->
  let w' := world (handleShareFile origin (FileData.userId f) (fileId, f)
                     None true typed now w) in
  verifyFilePassword fileId (trim typed) w' = (Returned true, w')
  /\ forall other, hashPassword other <> hashPassword (trim typed) ->
       verifyFilePassword fileId other w' = (Returned false, w').
Proof.
  intros Hf Hopen Hnonblank w'. subst w'.
  rewrite handleShareFile_world. cbn [fst snd].
  set (options := Some (shareOptions f None true typed)).
  assert (Hpw : opt_password options = Some (trim typed)).
  { unfold options. cbn [opt_password shareOptions Options.password].
    rewrite Hopen, (truthy_string_true _ Hnonblank). reflexivity. }
  assert (Htaken : UpdateData.storable (updateData (zoneOf w) options now) = true).
  { apply storable_without_hours. unfold options.
    cbn [opt_expiresIn shareOptions Options.expiresIn].
    destruct (bool_decide _); [by left | by right]. }
  rewrite (generateShareableLink_by_owner _ _ _ _ _ _ Hf), Htaken, world_pair.
  set (f' := UpdateData.apply (updateData (zoneOf w) options now) f).
  assert (Hflag : FileData.protected f' = true).
  { unfold FileData.protected, f'.
    rewrite updateData_isPasswordProtected, Hpw, (truthy_string_true _ Hnonblank).
    reflexivity. }
  assert (Hhash : FileData.password f' = Some (hashPassword (trim typed))).
  { unfold f'. rewrite updateData_password, Hpw, (truthy_string_true _ Hnonblank).
    reflexivity. }
  match goal with
  | |- context [mkWorld ?files ?users ?reqs ?sets] => set (w' := mkWorld files users reqs sets)
  end.
  assert (Hstored : fileDocs w' !! fileId = Some f') by apply lookup_insert_eq.
  split.
  - rewrite (verifyFilePassword_found _ _ _ _ Hstored), Hflag, Hhash.
    rewrite bool_decide_eq_true_2; reflexivity.
  - intros other Hother.
    rewrite (verifyFilePassword_found _ _ _ _ Hstored), Hflag, Hhash.
    rewrite bool_decide_eq_false_2; [reflexivity | congruence].
Qed.

Lemma handleShareFile_stores_trimmed_password_witness :
  let w' := world (handleShareFile Sample.origin "alice" ("report", Sample.report)
                     None true " secret " 7 Sample.store) in
  verifyFilePassword "report" "secret" w' = (Returned true, w')
  /\ verifyFilePassword "report" " secret " w' = (Returned false, w').
Proof.
  destruct (handleShareFile_stores_trimmed_password Sample.origin "report" " secret "
              7 Sample.store Sample.report) as [Htrimmed Hother].
  - vm_compute. reflexivity.
  - reflexivity.
  - vm_compute. discriminate.
  - split; [exact Htrimmed |]. apply Hother. vm_compute. discriminate.
Defined.

(** ** The countdown of ExpirationChecker.tsx *)

(** X24. [calculateTimeLeft] reports expiry exactly when the expiration
    is not after the current time; otherwise it splits the time left
    into days, hours below 24 and minutes below 60, which together fall
    short of the time left by less than a minute. *)
Theorem calculateTimeLeft_splits_the_time_left (now expirationDate : Z) :
  (expirationDate <= now -> calculateTimeLeft now expirationDate = None)
  /\ (now < expirationDate ->
      exists left,
        calculateTimeLeft now expirationDate = Some left
        /\ 0 <= TimeLeft.days left
        /\ 0 <= TimeLeft.hours left < 24
        /\ 0 <= TimeLeft.minutes left < 60
        /\ let shown :=
             TimeLeft.days left * 86400000 + TimeLeft.hours left * 3600000
             + TimeLeft.minutes left * 60000 in
           shown <= expirationDate - now < shown + 60000).
Proof.
  unfold calculateTimeLeft. cbn zeta. split.
  - intros Hpast. destruct (Z.leb_spec (expirationDate - now) 0); [reflexivity | lia].
  - intros Hlive. destruct (Z.leb_spec (expirationDate - now) 0); [lia |].
    eexists. split; [reflexivity |]. cbn [TimeLeft.days TimeLeft.hours TimeLeft.minutes].
    set (diff := expirationDate - now) in *.
    change (1000 * 60 * 60 * 24) with 86400000.
    change (1000 * 60 * 60) with 3600000.
    change (1000 * 60) with 60000.
    pose proof (Z.div_mod diff 86400000 ltac:(lia)) as Hday.
    pose proof (Z.mod_pos_bound diff 86400000 ltac:(lia)) as Hdayr.
    pose proof (Z.div_mod (diff mod 86400000) 3600000 ltac:(lia)) as Hhour.
    pose proof (Z.mod_pos_bound (diff mod 86400000) 3600000 ltac:(lia)) as Hhourr.
    pose proof (Z.div_mod (diff mod 3600000) 60000 ltac:(lia)) as Hmin.
    pose proof (Z.mod_pos_bound (diff mod 3600000) 60000 ltac:(lia)) as Hminr.
    pose proof (Z.mod_pos_bound diff 3600000 ltac:(lia)) as Hhr.
    assert (Hnest : (diff mod 86400000) mod 3600000 = diff mod 3600000).
    { symmetry. rewrite Hday at 1. rewrite Z.add_comm, Z.mul_comm.
      replace (diff / 86400000 * 86400000) with (diff / 86400000 * 24 * 3600000) by lia.
      apply Z.mod_add. lia. }
    rewrite Hnest in *.
    assert (0 <= diff / 86400000) by (apply Z.div_pos; lia).
    assert (0 <= diff mod 86400000 / 3600000) by (apply Z.div_pos; lia).
    assert (0 <= diff mod 3600000 / 60000) by (apply Z.div_pos; lia).
    repeat split; lia.
Qed.

Lemma calculateTimeLeft_splits_the_time_left_witness :
  calculateTimeLeft 50 50 = None
  /\ exists left, calculateTimeLeft 0 93784000 = Some left
                  /\ 0 <= TimeLeft.hours left < 24.
Proof.
  destruct (calculateTimeLeft_splits_the_time_left 50 50) as [Hpast _].
  destruct (calculateTimeLeft_splits_the_time_left 0 93784000) as [_ Hlive].
  split.
  - apply Hpast. reflexivity.
  - destruct Hlive as (left & Hleft & _ & Hhours & _); [reflexivity |].
    exists left. split; [exact Hleft | exact Hhours].
Defined.

(** X25. At the instant of its expiration a public file is judged in two
    ways: the countdown reports it expired and the owner's list leaves it
    out, while [getPublicFile] still returns it and the sweep does not
    match it. *)
Theorem expiry_instant_is_judged_in_two_ways
    (cloud : Cloudinary.t) (fileId : string) (w : World) (f : FileData.t) (e : Z) :
  fileDocs w !! fileId = Some f ->
  FileData.isPublic f = true ->
  FileData.expiresAt f = Some e ->
  calculateTimeLeft e e = None
  /\ (exists l, result (getUserFiles (FileData.userId f) e w) = Returned l
                /\ forall g, (fileId, g) ∉ l)
  /\ getPublicFile fileId e w = (Returned (Some (fileId, f)), w)
  /\ fileDocs (world (cleanupExpiredFiles cloud e w)) !! fileId = Some f.
Proof.
  intros Hf Hpub He. split; [| split; [| split]].
  - unfold calculateTimeLeft. cbn zeta. rewrite Z.sub_diag. reflexivity.
  - destruct (getUserFiles_listed (FileData.userId f) e w) as (l & Hrun & Hlisted).
    exists l. rewrite Hrun. split; [reflexivity |].
    intros g (d & Hd & _ & Hlive & _)%Hlisted.
    rewrite Hf in Hd. injection Hd as <-. rewrite He in Hlive. lia.
  - rewrite getPublicFile_unfold, Hf, Hpub, He.
    assert (Hnot : (e >? e) = false) by (apply gtb_false_iff; lia).
    rewrite Hnot. reflexivity.
  - destruct (cleanupExpiredFiles_effect cloud e w)
      as (w' & removed & -> & _ & Hremoved & Hlook & _).
    rewrite world_pair, Hlook, bool_decide_eq_false_2; [exact Hf |].
    intros ([id d] & -> & Hin)%list_elem_of_fmap. cbn [fst] in *.
    destruct (Hremoved _ _ Hin) as [Hd Hq].
    rewrite Hf in Hd. injection Hd as <-.
    unfold expiredFilesQuery in Hq. rewrite He, Z.ltb_irrefl in Hq. exact Hq.
Qed.

Lemma expiry_instant_is_judged_in_two_ways_witness :
  getPublicFile "report" 50 Sample.store
  = (Returned (Some ("report", Sample.report)), Sample.store)
  /\ exists l, result (getUserFiles "alice" 50 Sample.store) = Returned l
               /\ forall g, ("report", g) ∉ l.
Proof.
  destruct (expiry_instant_is_judged_in_two_ways Sample.online "report" Sample.store
              Sample.report 50) as (_ & Hlist & Hserved & _).
  - vm_compute. reflexivity.
  - reflexivity.
  - reflexivity.
  - split; [exact Hserved | exact Hlist].
Defined.

(** ** The form of a stored hash *)

Lemma string_length_app (s1 s2 : string) :
  String.length (s1 +:+ s2) = (String.length s1 + String.length s2)%nat.
Proof.
  induction s1 as [| c s1 IH]; [reflexivity |].
  change (String c s1 +:+ s2) with (String c (s1 +:+ s2)).
  change (String.length (String c (s1 +:+ s2))) with (S (String.length (s1 +:+ s2))).
  rewrite IH. reflexivity.
Qed.

Lemma all_hex_app (s1 s2 : string) : all_hex (s1 +:+ s2) = all_hex s1 && all_hex s2.
Proof.
  induction s1 as [| c s1 IH]; [reflexivity |].
  change (String c s1 +:+ s2) with (String c (s1 +:+ s2)).
  cbn [all_hex]. rewrite IH, andb_assoc. reflexivity.
Qed.

Lemma bytes_print_as_two_hex_digits (b : Z) :
  0 <= b <= 255 -> two_hex_digits b = true.
Proof.
  intros Hb.
  assert (Hall : forallb two_hex_digits (map Z.of_nat (seq 0 256)) = true)
    by (vm_compute; reflexivity).
  rewrite forallb_forall in Hall. apply Hall.
  apply in_map_iff. exists (Z.to_nat b). split; [lia |].
  apply in_seq. lia.
Qed.

Lemma hex_of_bytes (l : list Z) :
  Forall (fun b => 0 <= b <= 255) l ->
  let s := String.concat "" (map (fun b => padStart2 (toString16 b)) l) in
  String.length s = (2 * length l)%nat /\ all_hex s = true.
Proof.
  cbn zeta. induction 1 as [| b l Hb _ IH]; [split; reflexivity |].
  pose proof (bytes_print_as_two_hex_digits b Hb) as Htwo.
  unfold two_hex_digits in Htwo. cbn zeta in Htwo.
  apply andb_prop in Htwo as [Hlen Hhex]. apply Nat.eqb_eq in Hlen.
  destruct IH as [IHlen IHhex].
  destruct l as [| b' l].
  - cbn [map String.concat length]. split; [lia | exact Hhex].
  - change (String.concat "" (map (fun b => padStart2 (toString16 b)) (b :: b' :: l)))
      with (padStart2 (toString16 b)
            +:+ String.concat "" (map (fun b => padStart2 (toString16 b)) (b' :: l))).
    rewrite string_length_app, all_hex_app, Hlen, Hhex, IHlen, IHhex.
    split; [cbn [length]; lia | reflexivity].
Qed.

Lemma be_bytes_length (n : nat) (x : Z) : length (SHA256.be_bytes n x) = n.
Proof. induction n as [| n IH]; cbn; [reflexivity | rewrite IH; reflexivity]. Qed.

Lemma be_bytes_range (n : nat) (x : Z) :
  Forall (fun b => 0 <= b <= 255) (SHA256.be_bytes n x).
Proof.
  induction n as [| n IH]; cbn [SHA256.be_bytes]; constructor; [| exact IH].
  change 255 with (Z.ones 8). rewrite Z.land_ones by lia.
  pose proof (Z.mod_pos_bound (Z.shiftr x (8 * Z.of_nat n)) (2 ^ 8) ltac:(lia)).
  change (Z.ones 8) with 255. change (2 ^ 8) with 256 in *. lia.
Qed.

Lemma compress_length (h block : list Z) :
  length h = 8%nat -> length (SHA256.compress h block) = 8%nat.
Proof.
  intros Hh. unfold SHA256.compress. cbn zeta.
  rewrite length_zip_with_l_eq; [exact Hh |]. rewrite Hh. reflexivity.
Qed.

Lemma fold_compress_length (bs : list (list Z)) :
  forall h, length h = 8%nat -> length (fold_left SHA256.compress bs h) = 8%nat.
Proof.
  induction bs as [| b bs IH]; intros h Hh; [exact Hh |].
  cbn [fold_left]. apply IH, compress_length, Hh.
Qed.

Lemma digest_is_32_bytes (msg : list Z) :
  length (SHA256.digest msg) = 32%nat
  /\ Forall (fun b => 0 <= b <= 255) (SHA256.digest msg).
Proof.
  unfold SHA256.digest. cbn zeta.
  match goal with
  | |- context [fold_left SHA256.compress ?bs SHA256.H0] =>
      pose proof (fold_compress_length bs SHA256.H0 eq_refl) as Hlen;
      generalize dependent (fold_left SHA256.compress bs SHA256.H0)
  end.
  intros h Hh. split.
  - rewrite length_flat_map.
    do 9 (destruct h as [| ? h]; try discriminate).
    cbn [map list_sum]. rewrite !be_bytes_length. reflexivity.
  - apply Forall_flat_map, List.Forall_forall. intros x _. apply be_bytes_range.
Qed.

(** X26. Whatever the password, the hash that is stored for it is a
    string of 64 hexadecimal digits in lower case. *)
Theorem hashPassword_is_64_hex_digits (password : string) :
  String.length (hashPassword password) = 64%nat
  /\ all_hex (hashPassword password) = true.
Proof.
  destruct (digest_is_32_bytes (encode password)) as [Hlen Hrange].
  destruct (hex_of_bytes _ Hrange) as [Hlength Hhex].
  unfold hashPassword. rewrite Hlength, Hlen. split; [reflexivity | exact Hhex].
Qed.

(** ** The icon of a file *)

Lemma prefix_has_char (c : ascii) (k : string) :
  forall t, String.prefix k t = true -> has_char c k = true -> has_char c t = true.
Proof.
  induction k as [| a k IH]; intros t Hprefix Hin; [discriminate |].
  destruct t as [| b t]; [discriminate |].
  cbn [String.prefix] in Hprefix. destruct (ascii_dec a b) as [-> | _]; [| discriminate].
  cbn [has_char] in *. destruct (bool_decide (b = c)); [reflexivity |].
  cbn [orb] in *. apply IH; assumption.
Qed.

Lemma lastSegment_has_char (c : ascii) (s : string) :
  has_char c s = false -> has_char c (lastSegment s) = false.
Proof.
  induction s as [| a s IH]; [done |].
  cbn [has_char lastSegment]. intros [Ha Hs]%orb_false_elim.
  destruct (has_char "." s); [apply IH, Hs |].
  destruct (bool_decide (a = "."%char)); [exact Hs |].
  cbn [has_char]. rewrite Ha, Hs. reflexivity.
Qed.

Lemma lower_is_no_slash (c : ascii) : c <> "/"%char -> lower c <> "/"%char.
Proof.
  intros Hc. unfold lower. cbn zeta.
  destruct ((65 <=? N_of_ascii c)%N && (N_of_ascii c <=? 90)%N) eqn:Hletter; [| exact Hc].
  apply andb_prop in Hletter as [Hlow Hhigh].
  apply N.leb_le in Hlow. apply N.leb_le in Hhigh.
  intros Heq. apply (f_equal N_of_ascii) in Heq.
  rewrite N_ascii_embedding in Heq by lia. cbn in Heq. lia.
Qed.

Lemma toLowerCase_has_no_slash (s : string) :
  has_char "/" s = false -> has_char "/" (toLowerCase s) = false.
Proof.
  induction s as [| a s IH]; [done |].
  cbn [has_char toLowerCase]. intros [Ha Hs]%orb_false_elim.
  rewrite (IH Hs), orb_false_r. apply bool_decide_eq_false_1 in Ha.
  apply bool_decide_eq_false_2, lower_is_no_slash, Ha.
Qed.

Lemma getFileTypeIcon_without_slash (type : string) :
  has_char "/" type = false -> getFileTypeIcon type = "📄".
Proof.
  intros Hnone. unfold getFileTypeIcon, fileTypes. cbn [find fst snd].
  repeat match goal with
  | |- context [String.prefix ?k type] =>
      destruct (String.prefix k type) eqn:Hprefix;
      [ apply (prefix_has_char "/") in Hprefix; [congruence | reflexivity] | clear Hprefix ]
  end.
  reflexivity.
Qed.

(** X27. [getFileTypeIcon] gives the picture, film, music and writing
    icons to the types that begin with [image/], [video/], [audio/] and
    [text/], and the page to every string without a slash. The Dashboard
    passes it the extension of the file name, so for every file name
    without a slash the icon beside the upload is the page. *)
Theorem progressIcon_is_always_the_page (fileName : string) :
  (forall rest, getFileTypeIcon ("image/" +:+ rest) = "🖼️"
                /\ getFileTypeIcon ("video/" +:+ rest) = "🎥"
                /\ getFileTypeIcon ("audio/" +:+ rest) = "🎵"
                /\ getFileTypeIcon ("text/" +:+ rest) = "📝")
  /\ (forall type, has_char "/" type = false -> getFileTypeIcon type = "📄")
  /\ (has_char "/" fileName = false -> progressIcon fileName = "📄").
Proof.
  split; [| split].
  - intros rest. unfold getFileTypeIcon, fileTypes.
    destruct rest; (split; [| split; [| split]]); reflexivity.
  - apply getFileTypeIcon_without_slash.
  - intros Hnone. unfold progressIcon.
    apply getFileTypeIcon_without_slash, toLowerCase_has_no_slash, lastSegment_has_char.
    exact Hnone.
Qed.

Lemma progressIcon_is_always_the_page_witness :
  progressIcon "holiday.PNG" = "📄" /\ getFileTypeIcon "image/png" = "🖼️".
Proof.
  destruct (progressIcon_is_always_the_page "holiday.PNG") as (Hprefix & _ & Hpage).
  split.
  - apply Hpage. reflexivity.
  - apply (Hprefix "png").
Defined.
